(** * A model of the chapter reader (reader.js)

    The reader is a single closure over three variables ([novelFolder],
    [chapters], [currentChapterIndex]), a handful of DOM elements, the
    browser's [localStorage] and the network reached through [fetch].
    This development embeds that closure as functions over an explicit
    page state and proves the properties of the reader's specification.

    Conventions of the embedding:
    - a JavaScript number that the reader manipulates is an integer below
      2^53 in magnitude, [NaN], or a number of magnitude 2^53 or more of
      which only the sign is kept (indices come from [parseInt],
      [Array.prototype.indexOf] and [+ 1] / [- 1] only);
    - a value that may be [null] or [undefined] is an [option];
    - strings are well-formed Unicode strings, kept as their UTF-8 bytes;
      the case tables of Unicode behind [toLowerCase] are a parameter;
    - [localStorage] is a finite map from strings to strings whose
      operations succeed;
    - every call of [fetch] is recorded in a request log when it is made;
    - an [async] function is modelled twice: step by step, as a call that
      is suspended at each [await] while listeners and other suspended
      calls run ([beginLoad], [resume], [step]), and as the function that
      runs such a call from its start to its end with nothing in between
      ([loadChapter], [init]); the second is the first with the answers
      of one network and no interleaving ([loadChapter_uninterrupted]);
    - the document is kept as the values the script assigns to it; what
      the browser makes of the markup assigned to the chapter list, and
      which element a click hits, comes with the click event;
    - the page the script starts from (markup, storage) is a parameter;
    - the diagnostic output ([console.log], [console.error]) is left out. *)

From Stdlib Require Import ZArith Ascii String Decimal DecimalString DecimalPos DecimalN DecimalZ.
From stdpp Require Import gmap strings list.

Local Open Scope Z_scope.

(** ** JavaScript primitives used by the reader *)

Module JS.

(** Numbers.  [Int z] is the integer [z]; it is used below 2^53 in
    magnitude, where every integer is a number of JavaScript and adding or
    subtracting one, comparing and printing in decimal are exact.
    [Huge negative] is a number of magnitude 2^53 or more, infinite ones
    included, of which only the sign is kept: [parseInt] rounds a long run
    of digits to such a number, in a way the language leaves in part to
    the implementation.  Such a number is beyond the positions of every
    array (an array has less than 2^32 elements), which is all the reader
    asks of it: the range check of [loadChapter] turns it away, so it is
    never the current index, never printed and never stored. *)
Inductive number : Type :=
| Int (z : Z)
| NaN
| Huge (negative : bool).

#[global] Instance number_eq_dec : EqDecision number.
Proof. solve_decision. Defined.

(** Runs of decimal digits can be compared. *)
#[global] Instance uint_eq_dec : EqDecision uint.
Proof. solve_decision. Defined.

(** [a < b], [a >= b] and [a === b], where one side is an integer below
    2^53: every comparison with [NaN] is false, and a number kept by its
    sign is below every such integer when negative and above when not.
    (The reader compares with [0], [chapters.length] and
    [chapters.length - 1] only.) *)
Definition lt (a b : number) : bool :=
  match a, b with
  | Int x, Int y => x <? y
  | Huge negative, Int _ => negative
  | Int _, Huge negative => negb negative
  | _, _ => false
  end.

Definition ge (a b : number) : bool :=
  match a, b with
  | Int x, Int y => x >=? y
  | Huge negative, Int _ => negb negative
  | Int _, Huge negative => negative
  | _, _ => false
  end.

Definition strict_eq (a b : number) : bool :=
  match a, b with
  | Int x, Int y => x =? y
  | _, _ => false
  end.

(** [a + b] and [a - b] for integers below 2^53 whose result is below
    2^53 (the reader adds [1] to the current index and subtracts [1] from
    it and from the length of the chapter list).  On a number kept by its
    sign, which the current index never is, adding or subtracting [1]
    gives a number that is again beyond every array and is kept by the
    same sign (from 2^54 on it is the same number). *)
Definition add (a b : number) : number :=
  match a, b with
  | Int x, Int y => Int (x + y)
  | Huge negative, Int _ => Huge negative
  | _, _ => NaN
  end.

Definition sub (a b : number) : number :=
  match a, b with
  | Int x, Int y => Int (x - y)
  | Huge negative, Int _ => Huge negative
  | _, _ => NaN
  end.

(** [String(n)], as done by template literals and by [setItem]: decimal for
    an integer below 2^53.  The reader converts positions of the chapter
    list, the length of the list and indices that passed the range check of
    [loadChapter], which are such integers or [NaN]; the last case is there
    to make the function total, with the text of the infinite numbers. *)
Definition to_string (n : number) : string :=
  match n with
  | Int z => NilEmpty.string_of_int (Z.to_int z)
  | NaN => "NaN"
  | Huge negative => if negative then "-Infinity" else "Infinity"
  end.

(** [a || b] on numbers: [NaN] and [0] are falsy. *)
Definition or_number (a b : number) : number :=
  match a with
  | NaN => b
  | Int z => if z =? 0 then b else a
  | Huge _ => a
  end.

(** [a || b] where [a] is a string or [null]: [null] and the empty string
    are falsy. *)
Definition or_string (a : option string) (b : string) : string :=
  match a with
  | None => b
  | Some EmptyString => b
  | Some s => s
  end.

(** Truthiness of a string or [null], for [!x]. *)
Definition truthy (a : option string) : bool :=
  match a with
  | None => false
  | Some EmptyString => false
  | Some _ => true
  end.

(** String conversion of a value that may be [null]. *)
Definition string_of_nullable (a : option string) : string :=
  match a with
  | None => "null"
  | Some s => s
  end.

(** String conversion of a value that may be [undefined]. *)
Definition string_of_undefined (a : option string) : string :=
  match a with
  | None => "undefined"
  | Some s => s
  end.

(** The white space and line terminators that [parseInt] skips, as the
    number of bytes of the one that starts [s], or [0] when none does:
    TAB, LF, VT, FF, CR and SP (one byte); U+00A0 (two bytes);
    U+1680, U+2000 to U+200A, U+2028, U+2029, U+202F, U+205F, U+3000 and
    U+FEFF (three bytes). *)
Definition white_space_length (s : string) : nat :=
  match s with
  | String c rest =>
      match N_of_ascii c, rest with
      | (9 | 10 | 11 | 12 | 13 | 32)%N, _ => 1
      | 194%N, String d _ =>
          match N_of_ascii d with 160%N => 2 | _ => 0 end
      | 225%N, String d (String e _) =>
          match N_of_ascii d, N_of_ascii e with
          | 154%N, 128%N => 3
          | _, _ => 0
          end
      | 226%N, String d (String e _) =>
          match N_of_ascii d, N_of_ascii e with
          | 128%N, (128 | 129 | 130 | 131 | 132 | 133 | 134 | 135 | 136
                    | 137 | 138 | 168 | 169 | 175)%N => 3
          | 129%N, 159%N => 3
          | _, _ => 0
          end
      | 227%N, String d (String e _) =>
          match N_of_ascii d, N_of_ascii e with
          | 128%N, 128%N => 3
          | _, _ => 0
          end
      | 239%N, String d (String e _) =>
          match N_of_ascii d, N_of_ascii e with
          | 187%N, 191%N => 3
          | _, _ => 0
          end
      | _, _ => 0
      end
  | EmptyString => 0
  end.

(** [s] without its leading white space. *)
Fixpoint trim_start (s : string) : string :=
  match white_space_length s, s with
  | 1%nat, String _ s1 => trim_start s1
  | 2%nat, String _ (String _ s2) => trim_start s2
  | 3%nat, String _ (String _ (String _ s3)) => trim_start s3
  | _, _ => s
  end.

(** A decimal digit, as the constructor of [Decimal.uint] it stands for. *)
Definition digit_of (c : ascii) : option (uint → uint) :=
  match c with
  | "0"%char => Some D0
  | "1"%char => Some D1
  | "2"%char => Some D2
  | "3"%char => Some D3
  | "4"%char => Some D4
  | "5"%char => Some D5
  | "6"%char => Some D6
  | "7"%char => Some D7
  | "8"%char => Some D8
  | "9"%char => Some D9
  | _ => None
  end.

(** The longest prefix of [s] made of decimal digits. *)
Fixpoint digits_prefix (s : string) : uint :=
  match s with
  | String c s' =>
      match digit_of c with
      | Some d => d (digits_prefix s')
      | None => Nil
      end
  | EmptyString => Nil
  end.

(** The sign that [parseInt] reads, and what follows it. *)
Definition strip_sign (s : string) : Z * string :=
  match s with
  | String "-"%char r => (-1, r)
  | String "+"%char r => (1, r)
  | _ => (1, s)
  end.

(** 2^53: below it every integer is a number of JavaScript. *)
Definition two_53 : Z := 9007199254740992.

(** [parseInt(input, 10)]: convert to a string, skip leading white space,
    read an optional sign, then the longest run of decimal digits; no
    digit at all gives [NaN], a run that stands for 2^53 or more gives a
    number of that magnitude, rounded. *)
Definition parseInt (input : option string) : number :=
  let inputString := string_of_nullable input in
  let '(sign, s) := strip_sign (trim_start inputString) in
  match digits_prefix s with
  | Nil => NaN
  | d => if Z.of_uint d <? two_53 then Int (sign * Z.of_uint d)
         else Huge (sign <? 0)
  end.

(** [s.toLowerCase()] follows the case tables of Unicode, which this
    development does not hold: the function is a parameter of what uses it. *)
Class CaseTable : Type := toLowerCase : string → string.

(** What [toLowerCase] does on a string of ASCII characters. *)
Definition lower_char (c : ascii) : ascii :=
  let n := N_of_ascii c in
  if ((65 <=? n) && (n <=? 90))%N then ascii_of_N (n + 32) else c.

Fixpoint ascii_toLowerCase (s : string) : string :=
  match s with
  | String c s' => String (lower_char c) (ascii_toLowerCase s')
  | EmptyString => EmptyString
  end.

(** [s.includes(t)]: [t] occurs in [s] as a contiguous substring. *)
Fixpoint includes (s t : string) : bool :=
  String.prefix t s ||
  match s with
  | String _ s' => includes s' t
  | EmptyString => false
  end.

(** [s.replace(/-/g, ' ')]. *)
Fixpoint replace_hyphens (s : string) : string :=
  match s with
  | String c s' =>
      String (if Ascii.eqb c "-" then " "%char else c) (replace_hyphens s')
  | EmptyString => EmptyString
  end.

End JS.

(** ** Data model *)

(** A chapter descriptor of the manifest: [{ number, title, file }].  The
    reader uses [number] inside template literals only (lines 31 and 63):
    the field is kept as the string such a literal makes of it, whatever
    the manifest holds there. *)
Record descriptor : Type := {
  number : string;
  title : string;
  file : string
}.

(** A chapter object of the [chapters] array.  [response.json()] creates one
    fresh object per manifest entry; [oid] is the identity of that object,
    which is what [===] (and so [indexOf]) compares.  The reader never
    writes to a chapter object, so its fields travel with its identity. *)
Record object : Type := {
  oid : nat;
  fields : descriptor
}.

Definition same_object (a b : object) : bool := Nat.eqb (oid a) (oid b).

(** The objects built by [response.json()] for the entries [ds], the first
    of them at identity [base]. *)
Fixpoint json_objects (base : nat) (ds : list descriptor) : list object :=
  match ds with
  | [] => []
  | d :: ds' => {| oid := base; fields := d |} :: json_objects (S base) ds'
  end.

(** [l.indexOf(x)], counting from [i]: the first position holding the very
    object [x], or [-1]. *)
Fixpoint indexOf_from (i : Z) (l : list object) (x : object) : Z :=
  match l with
  | [] => -1
  | y :: l' => if same_object y x then i else indexOf_from (i + 1) l' x
  end.

Definition indexOf (l : list object) (x : object) : Z := indexOf_from 0 l x.

(** [l[index]]: [undefined] ([None]) unless [index] is a position of [l]. *)
Definition element_at (l : list object) (index : JS.number) : option object :=
  match index with
  | JS.Int z => if z <? 0 then None else l !! Z.to_nat z
  | JS.NaN => None
  | JS.Huge _ => None
  end.

(** *** The network *)

(** What the reader looks at in a [Response]: its status, and what
    [text()] and [json()] resolve to ([None] when they reject). *)
Record response : Type := {
  status : Z;
  text : option string;
  json : option (list descriptor)
}.

(** [response.ok]: the status is in the range 200-299. *)
Definition ok (r : response) : bool := (200 <=? status r) && (status r <=? 299).

(** The promise returned by [fetch] rejects (network failure) or resolves
    to a response, whatever its status. *)
Inductive fetch_result : Type :=
| Rejected
| Resolved (r : response).

Definition network : Type := string → fetch_result.

(** *** The document *)

(** What a script has put in an element: markup through [innerHTML] or
    plain text through [textContent]. *)
Inductive content : Type :=
| InnerHTML (markup : string)
| TextContent (text : string).

(** Title, content area, navigation controls and scroll position. *)
Record display : Type := {
  novelTitle : string;
  documentTitle : string;
  chapterContent : content;
  chapterIndicator : string;
  prevDisabled : bool;
  nextDisabled : bool;
  scroll : Z * Z
}.

(** The chapter picker and the settings dialog; [chapterList] is the markup
    of the chapter list element ([chapterListEl.innerHTML]). *)
Record dialogs : Type := {
  chapterList : string;
  chapterModalVisible : bool;
  settingsModalVisible : bool
}.

(** What the settings logic assigns: slider positions, their captions, the
    style of the content area and the theme attribute of the document. *)
Record appearance : Type := {
  fontSizeSlider : string;
  lineHeightSlider : string;
  fontSizeValue : string;
  lineHeightValue : string;
  styleFontSize : string;
  styleLineHeight : string;
  dataTheme : option string
}.

(** The whole state: the closure variables, the document, the storage and
    the log of the requests issued so far (most recent last). *)
Record page : Type := {
  novelFolder : option string;
  chapters : list object;
  currentChapterIndex : JS.number;
  shown : display;
  modals : dialogs;
  look : appearance;
  localStorage : gmap string string;
  requests : list string
}.

(** Field updates. *)
Definition set_novelFolder (v : option string) (p : page) : page :=
  {| novelFolder := v; chapters := chapters p;
     currentChapterIndex := currentChapterIndex p; shown := shown p;
     modals := modals p; look := look p; localStorage := localStorage p;
     requests := requests p |}.

Definition set_chapters (v : list object) (p : page) : page :=
  {| novelFolder := novelFolder p; chapters := v;
     currentChapterIndex := currentChapterIndex p; shown := shown p;
     modals := modals p; look := look p; localStorage := localStorage p;
     requests := requests p |}.

Definition set_currentChapterIndex (v : JS.number) (p : page) : page :=
  {| novelFolder := novelFolder p; chapters := chapters p;
     currentChapterIndex := v; shown := shown p;
     modals := modals p; look := look p; localStorage := localStorage p;
     requests := requests p |}.

Definition with_shown (f : display → display) (p : page) : page :=
  {| novelFolder := novelFolder p; chapters := chapters p;
     currentChapterIndex := currentChapterIndex p; shown := f (shown p);
     modals := modals p; look := look p; localStorage := localStorage p;
     requests := requests p |}.

Definition with_modals (f : dialogs → dialogs) (p : page) : page :=
  {| novelFolder := novelFolder p; chapters := chapters p;
     currentChapterIndex := currentChapterIndex p; shown := shown p;
     modals := f (modals p); look := look p; localStorage := localStorage p;
     requests := requests p |}.

Definition with_look (f : appearance → appearance) (p : page) : page :=
  {| novelFolder := novelFolder p; chapters := chapters p;
     currentChapterIndex := currentChapterIndex p; shown := shown p;
     modals := modals p; look := f (look p); localStorage := localStorage p;
     requests := requests p |}.

(** [localStorage.setItem(key, value)]. *)
Definition setItem (key value : string) (p : page) : page :=
  {| novelFolder := novelFolder p; chapters := chapters p;
     currentChapterIndex := currentChapterIndex p; shown := shown p;
     modals := modals p; look := look p;
     localStorage := <[key := value]> (localStorage p);
     requests := requests p |}.

(** [localStorage.getItem(key)]: the stored string or [null]. *)
Definition getItem (key : string) (p : page) : option string :=
  localStorage p !! key.

Definition log_request (path : string) (p : page) : page :=
  {| novelFolder := novelFolder p; chapters := chapters p;
     currentChapterIndex := currentChapterIndex p; shown := shown p;
     modals := modals p; look := look p; localStorage := localStorage p;
     requests := requests p ++ [path] |}.

Definition set_novelTitle (v : string) (d : display) : display :=
  {| novelTitle := v; documentTitle := documentTitle d;
     chapterContent := chapterContent d; chapterIndicator := chapterIndicator d;
     prevDisabled := prevDisabled d; nextDisabled := nextDisabled d;
     scroll := scroll d |}.

Definition set_documentTitle (v : string) (d : display) : display :=
  {| novelTitle := novelTitle d; documentTitle := v;
     chapterContent := chapterContent d; chapterIndicator := chapterIndicator d;
     prevDisabled := prevDisabled d; nextDisabled := nextDisabled d;
     scroll := scroll d |}.

Definition set_chapterContent (v : content) (d : display) : display :=
  {| novelTitle := novelTitle d; documentTitle := documentTitle d;
     chapterContent := v; chapterIndicator := chapterIndicator d;
     prevDisabled := prevDisabled d; nextDisabled := nextDisabled d;
     scroll := scroll d |}.

Definition set_scroll (v : Z * Z) (d : display) : display :=
  {| novelTitle := novelTitle d; documentTitle := documentTitle d;
     chapterContent := chapterContent d; chapterIndicator := chapterIndicator d;
     prevDisabled := prevDisabled d; nextDisabled := nextDisabled d;
     scroll := v |}.

Definition set_controls (prev next : bool) (indicator : string) (d : display) : display :=
  {| novelTitle := novelTitle d; documentTitle := documentTitle d;
     chapterContent := chapterContent d; chapterIndicator := indicator;
     prevDisabled := prev; nextDisabled := next;
     scroll := scroll d |}.

Definition set_chapterList (v : string) (m : dialogs) : dialogs :=
  {| chapterList := v; chapterModalVisible := chapterModalVisible m;
     settingsModalVisible := settingsModalVisible m |}.

Definition set_chapterModalVisible (v : bool) (m : dialogs) : dialogs :=
  {| chapterList := chapterList m; chapterModalVisible := v;
     settingsModalVisible := settingsModalVisible m |}.

Definition set_settingsModalVisible (v : bool) (m : dialogs) : dialogs :=
  {| chapterList := chapterList m; chapterModalVisible := chapterModalVisible m;
     settingsModalVisible := v |}.

Definition set_fontSizeSlider (v : string) (a : appearance) : appearance :=
  {| fontSizeSlider := v; lineHeightSlider := lineHeightSlider a;
     fontSizeValue := fontSizeValue a; lineHeightValue := lineHeightValue a;
     styleFontSize := styleFontSize a; styleLineHeight := styleLineHeight a;
     dataTheme := dataTheme a |}.

Definition set_lineHeightSlider (v : string) (a : appearance) : appearance :=
  {| fontSizeSlider := fontSizeSlider a; lineHeightSlider := v;
     fontSizeValue := fontSizeValue a; lineHeightValue := lineHeightValue a;
     styleFontSize := styleFontSize a; styleLineHeight := styleLineHeight a;
     dataTheme := dataTheme a |}.

Definition set_fontSize (style caption : string) (a : appearance) : appearance :=
  {| fontSizeSlider := fontSizeSlider a; lineHeightSlider := lineHeightSlider a;
     fontSizeValue := caption; lineHeightValue := lineHeightValue a;
     styleFontSize := style; styleLineHeight := styleLineHeight a;
     dataTheme := dataTheme a |}.

Definition set_lineHeight (style caption : string) (a : appearance) : appearance :=
  {| fontSizeSlider := fontSizeSlider a; lineHeightSlider := lineHeightSlider a;
     fontSizeValue := fontSizeValue a; lineHeightValue := caption;
     styleFontSize := styleFontSize a; styleLineHeight := style;
     dataTheme := dataTheme a |}.

Definition set_dataTheme (v : option string) (a : appearance) : appearance :=
  {| fontSizeSlider := fontSizeSlider a; lineHeightSlider := lineHeightSlider a;
     fontSizeValue := fontSizeValue a; lineHeightValue := lineHeightValue a;
     styleFontSize := styleFontSize a; styleLineHeight := styleLineHeight a;
     dataTheme := v |}.

(** ** The reader's functions *)

(** The double-quote character of the markup templates. *)
Definition dquote : string := String (ascii_of_N 34) EmptyString.

(** [`<p class="loading-text">Loading Chapter ${chapter.number}: ${chapter.title}...</p>`] *)
Definition loading_markup (chapter : object) : string :=
  "<p class=" +:+ dquote +:+ "loading-text" +:+ dquote +:+ ">Loading Chapter "
  +:+ number (fields chapter) +:+ ": "
  +:+ title (fields chapter) +:+ "...</p>".

(** [`<p class="loading-text">Failed to load chapter. Please try again.</p>`] *)
Definition failed_markup : string :=
  "<p class=" +:+ dquote +:+ "loading-text" +:+ dquote
  +:+ ">Failed to load chapter. Please try again.</p>".

(** [`${novelFolder}/llm_chapters/${chapter.file}`] and
    [`${novelFolder}/raw_chapters/${chapter.file}`] *)
Definition llmPath (folder : option string) (chapter : object) : string :=
  JS.string_of_nullable folder +:+ "/llm_chapters/" +:+ file (fields chapter).

Definition rawPath (folder : option string) (chapter : object) : string :=
  JS.string_of_nullable folder +:+ "/raw_chapters/" +:+ file (fields chapter).

(** [`lastChapter-${novelFolder}`] *)
Definition lastChapterKey (folder : option string) : string :=
  "lastChapter-" +:+ JS.string_of_nullable folder.

(** [`${novelFolder}/manifest.json`] *)
Definition manifestPath (folder : option string) : string :=
  JS.string_of_nullable folder +:+ "/manifest.json".

(** [await fetch(path)]: the request is logged, the network answers. *)
Definition fetch (net : network) (path : string) (p : page) : page * fetch_result :=
  (log_request path p, net path).

(** [updateUI]. *)
Definition updateUI (p : page) : page :=
  let len := JS.Int (Z.of_nat (length (chapters p))) in
  with_shown
    (set_controls
       (JS.strict_eq (currentChapterIndex p) (JS.Int 0))
       (JS.strict_eq (currentChapterIndex p) (JS.sub len (JS.Int 1)))
       ("Chapter " +:+ JS.to_string (JS.add (currentChapterIndex p) (JS.Int 1))
        +:+ " / " +:+ JS.to_string len))
    p.

(** The [try] block of [loadChapter] up to [await response.text()]: the text
    of the chapter, or [None] when an exception is raised (a rejected
    [fetch], a response that is not [ok], a rejected [text()]). *)
Definition fetchChapterText (net : network) (llm raw : string) (p : page)
  : page * option string :=
  let '(p, r) := fetch net llm p in
  match r with
  | Rejected => (p, None)
  | Resolved response =>
      let '(p, r) :=
        if status response =? 404 then fetch net raw p
        else (p, Resolved response) in
      match r with
      | Rejected => (p, None)
      | Resolved response =>
          if ok response then (p, text response) else (p, None)
      end
  end.

(** [loadChapter(index)], run from its call to its end with the answers of
    [net] and nothing in between.  When [chapters[index]] is [undefined]
    although the guard let [index] through (only [NaN] does that), reading
    [chapter.number] throws before the [try] block: the function stops
    there, with [currentChapterIndex] already assigned. *)
Definition loadChapter (net : network) (index : JS.number) (p : page) : page :=
  if JS.lt index (JS.Int 0)
     || JS.ge index (JS.Int (Z.of_nat (length (chapters p))))
  then p
  else
    let p := set_currentChapterIndex index p in
    match element_at (chapters p) index with
    | None => p
    | Some chapter =>
        let p := with_shown (set_chapterContent (InnerHTML (loading_markup chapter))) p in
        let llm := llmPath (novelFolder p) chapter in
        let raw := rawPath (novelFolder p) chapter in
        match fetchChapterText net llm raw p with
        | (p, Some text) =>
            let p := with_shown (set_chapterContent (TextContent text)) p in
            let p := with_shown (set_scroll (0, 0)) p in
            let p := updateUI p in
            setItem (lastChapterKey (novelFolder p)) (JS.to_string index) p
        | (p, None) =>
            with_shown (set_chapterContent (InnerHTML failed_markup)) p
        end
    end.

(** One anchor of [populateChapterList]:
    [`<a href="#" data-index="${chapters.indexOf(chap)}">${chap.number}. ${chap.title}</a>`] *)
Definition anchor_markup (all : list object) (chap : object) : string :=
  "<a href=" +:+ dquote +:+ "#" +:+ dquote +:+ " data-index=" +:+ dquote
  +:+ JS.to_string (JS.Int (indexOf all chap)) +:+ dquote +:+ ">"
  +:+ number (fields chap) +:+ ". "
  +:+ title (fields chap) +:+ "</a>".

(** [populateChapterList(chaptersToRender)]: the anchors, joined, become
    the markup of the chapter list element. *)
Definition populateChapterList (chaptersToRender : list object) (p : page) : page :=
  with_modals
    (set_chapterList
       (String.concat EmptyString (map (anchor_markup (chapters p)) chaptersToRender)))
    p.

(** [applySetting(key, value)]. *)
Definition applySetting (key value : string) (p : page) : page :=
  let p := setItem key value p in
  if String.eqb key "fontSize" then
    with_look (set_fontSize (value +:+ "px") (value +:+ "px")) p
  else if String.eqb key "lineHeight" then
    with_look (set_lineHeight value value) p
  else if String.eqb key "theme" then
    with_look (set_dataTheme (Some value)) p
  else p.

(** [loadSettings()]: the keys of [settings] are visited in the order in
    which the object literal lists them. *)
Definition loadSettings (p : page) : page :=
  let fontSize := JS.or_string (getItem "fontSize" p) "18" in
  let lineHeight := JS.or_string (getItem "lineHeight" p) "1.8" in
  let theme := JS.or_string (getItem "theme" p) "light" in
  let p := with_look (set_fontSizeSlider fontSize) p in
  let p := with_look (set_lineHeightSlider lineHeight) p in
  let p := applySetting "fontSize" fontSize p in
  let p := applySetting "lineHeight" lineHeight p in
  applySetting "theme" theme p.

(** [parseInt(localStorage.getItem(`lastChapter-${novelFolder}`), 10) || 0] *)
Definition lastChapterIndex (p : page) : JS.number :=
  JS.or_number (JS.parseInt (getItem (lastChapterKey (novelFolder p)) p)) (JS.Int 0).

(** [init()], where [param] is [params.get('novel')], run from its call to
    the end of the [loadChapter] it calls, with the answers of [net] and
    nothing in between.  The manifest is accepted when the request resolves
    with an [ok] response whose body parses; anything else is caught. *)
Definition init (param : option string) (net : network) (p : page) : page :=
  let p := set_novelFolder param p in
  if negb (JS.truthy (novelFolder p)) then
    with_shown (set_novelTitle "Novel not found in URL.") p
  else
    let readableTitle := JS.replace_hyphens (JS.string_of_nullable (novelFolder p)) in
    let p := with_shown (set_novelTitle readableTitle) p in
    let p := with_shown (set_documentTitle readableTitle) p in
    let '(p, r) := fetch net (manifestPath (novelFolder p)) p in
    let manifest :=
      match r with
      | Rejected => None
      | Resolved response => if ok response then json response else None
      end in
    match manifest with
    | Some entries =>
        let p := set_chapters (json_objects 0 entries) p in
        let p := populateChapterList (chapters p) p in
        loadChapter net (lastChapterIndex p) p
    | None =>
        with_shown (set_novelTitle "Could not load novel.") p
    end.

(** ** Event listeners *)

Inductive modal : Type := ChapterModal | SettingsModal.

(** The events the script listens to, with what their listeners read from
    them.  A click in the chapter list comes with its target as the browser
    found it: the tag name of the element hit and its [data-index]
    attribute, if it has one. *)
Inductive event : Type :=
| PrevClick
| NextClick
| KeyDown (key : string)
| ChapterListBtnClick
| SettingsBtnClick
| CloseClick (m : modal)
| ListClick (tagName : string) (index : option string)
| SearchInput (value : string)
| FontSizeInput (value : string)
| LineHeightInput (value : string)
| ThemeToggleClick.

Definition on_prev (net : network) (p : page) : page :=
  loadChapter net (JS.sub (currentChapterIndex p) (JS.Int 1)) p.

Definition on_next (net : network) (p : page) : page :=
  loadChapter net (JS.add (currentChapterIndex p) (JS.Int 1)) p.

(** [button.click()]: a disabled button dispatches no click event. *)
Definition click (disabled : bool) (listener : page → page) (p : page) : page :=
  if disabled then p else listener p.

Definition on_keydown (net : network) (key : string) (p : page) : page :=
  let p := if String.eqb key "ArrowLeft"
           then click (prevDisabled (shown p)) (on_prev net) p else p in
  if String.eqb key "ArrowRight"
  then click (nextDisabled (shown p)) (on_next net) p else p.

(** The listener of the chapter list:
    [if (e.target.tagName === 'A') { loadChapter(parseInt(e.target.dataset.index, 10)); ... }] *)
Definition on_list_click (net : network) (tagName : string) (index : option string)
    (p : page) : page :=
  if String.eqb tagName "A" then
    let p := loadChapter net (JS.parseInt (Some (JS.string_of_undefined index))) p in
    with_modals (set_chapterModalVisible false) p
  else p.

Definition on_theme_toggle (p : page) : page :=
  let newTheme :=
    match dataTheme (look p) with
    | Some t => if String.eqb t "dark" then "light" else "dark"
    | None => "dark"
    end in
  applySetting "theme" newTheme p.

(** The script's top level: the closure variables get their initial values
    on top of the document ([d], [m], [a]) and the storage [s] found at
    load time; then [loadSettings()] and [init()] are called. *)
Definition fresh (d : display) (m : dialogs) (a : appearance)
    (s : gmap string string) : page :=
  {| novelFolder := Some EmptyString; chapters := [];
     currentChapterIndex := JS.Int 0;
     shown := d; modals := m; look := a; localStorage := s; requests := [] |}.

Definition start (param : option string) (net : network) (p0 : page) : page :=
  init param net (loadSettings p0).

(** ** Calls suspended at an [await] *)

(** An [async] call of the script that waits at one of its [await]s: [init]
    for the manifest (line 110) or for its parsed body (line 112),
    [loadChapter] for the preferred path (line 37), for the fallback path
    (line 40) or for the text of the response (line 44).  A call that waits
    for a request is kept with the path of that request; a call of
    [loadChapter] is kept with its [index] and, before the fallback, with
    the constant [rawPath]. *)
Inductive suspension : Type :=
| AwaitManifest (path : string)
| AwaitJson (r : response)
| AwaitPreferred (index : JS.number) (llm raw : string)
| AwaitFallback (index : JS.number) (raw : string)
| AwaitText (index : JS.number) (r : response).

(** The index that a suspended call of [loadChapter] was called with. *)
Definition load_of (t : suspension) : option JS.number :=
  match t with
  | AwaitPreferred index _ _ => Some index
  | AwaitFallback index _ => Some index
  | AwaitText index _ => Some index
  | AwaitManifest _ => None
  | AwaitJson _ => None
  end.

(** The [catch] block of [loadChapter]. *)
Definition showFailure (p : page) : page :=
  with_shown (set_chapterContent (InnerHTML failed_markup)) p.

(** Lines 45 to 48 of [loadChapter], once the text is there. *)
Definition showChapter (index : JS.number) (text : string) (p : page) : page :=
  let p := with_shown (set_chapterContent (TextContent text)) p in
  let p := with_shown (set_scroll (0, 0)) p in
  let p := updateUI p in
  setItem (lastChapterKey (novelFolder p)) (JS.to_string index) p.

(** [loadChapter(index)] from the call to its first [await]: the guard, the
    assignment of the index, the placeholder and the call of [fetch]. *)
Definition beginLoad (index : JS.number) (p : page) : page * list suspension :=
  if JS.lt index (JS.Int 0)
     || JS.ge index (JS.Int (Z.of_nat (length (chapters p))))
  then (p, [])
  else
    let p := set_currentChapterIndex index p in
    match element_at (chapters p) index with
    | None => (p, [])
    | Some chapter =>
        let p := with_shown (set_chapterContent (InnerHTML (loading_markup chapter))) p in
        let llm := llmPath (novelFolder p) chapter in
        let raw := rawPath (novelFolder p) chapter in
        (log_request llm p, [AwaitPreferred index llm raw])
    end.

(** [loadChapter] from a response that is not a 404 to its next [await]:
    the test of line 42, then the call of [response.text()]. *)
Definition afterFetch (index : JS.number) (r : response) (p : page)
  : page * list suspension :=
  if ok r then (p, [AwaitText index r]) else (showFailure p, []).

(** The [catch] block of [init]. *)
Definition manifestFailure (p : page) : page :=
  with_shown (set_novelTitle "Could not load novel.") p.

(** [init()] from the call to its first [await]. *)
Definition beginInit (param : option string) (p : page) : page * list suspension :=
  let p := set_novelFolder param p in
  if negb (JS.truthy (novelFolder p)) then
    (with_shown (set_novelTitle "Novel not found in URL.") p, [])
  else
    let readableTitle := JS.replace_hyphens (JS.string_of_nullable (novelFolder p)) in
    let p := with_shown (set_novelTitle readableTitle) p in
    let p := with_shown (set_documentTitle readableTitle) p in
    let path := manifestPath (novelFolder p) in
    (log_request path p, [AwaitManifest path]).

(** A suspended call goes on when what it waits for is there, up to its
    next [await] or to its end.  [answer] is how the awaited request
    settled; a call that waits for the body of a response finds what the
    body method resolves to in the response it holds. *)
Definition resume (t : suspension) (answer : fetch_result) (p : page)
  : page * list suspension :=
  match t with
  | AwaitManifest _ =>
      match answer with
      | Rejected => (manifestFailure p, [])
      | Resolved r => if ok r then (p, [AwaitJson r]) else (manifestFailure p, [])
      end
  | AwaitJson r =>
      match json r with
      | Some entries =>
          let p := set_chapters (json_objects 0 entries) p in
          let p := populateChapterList (chapters p) p in
          beginLoad (lastChapterIndex p) p
      | None => (manifestFailure p, [])
      end
  | AwaitPreferred index llm raw =>
      match answer with
      | Rejected => (showFailure p, [])
      | Resolved r =>
          if status r =? 404 then (log_request raw p, [AwaitFallback index raw])
          else afterFetch index r p
      end
  | AwaitFallback index raw =>
      match answer with
      | Rejected => (showFailure p, [])
      | Resolved r => afterFetch index r p
      end
  | AwaitText index r =>
      match text r with
      | Some body => (showChapter index body p, [])
      | None => (showFailure p, [])
      end
  end.

(** What a network gives a suspended call. *)
Definition awaited (net : network) (t : suspension) : fetch_result :=
  match t with
  | AwaitManifest path => net path
  | AwaitPreferred _ llm _ => net llm
  | AwaitFallback _ raw => net raw
  | AwaitJson r => Resolved r
  | AwaitText _ r => Resolved r
  end.

(** A call run to its end with the answers of [net] and nothing in
    between; [fuel] bounds the number of [await]s. *)
Fixpoint complete (net : network) (fuel : nat) (ts : list suspension) (p : page)
  : page :=
  match fuel, ts with
  | S fuel', t :: _ =>
      let '(p', ts') := resume t (awaited net t) p in
      complete net fuel' ts' p'
  | _, _ => p
  end.

Definition begin_prev (p : page) : page * list suspension :=
  beginLoad (JS.sub (currentChapterIndex p) (JS.Int 1)) p.

Definition begin_next (p : page) : page * list suspension :=
  beginLoad (JS.add (currentChapterIndex p) (JS.Int 1)) p.

Definition begin_click (disabled : bool) (listener : page → page * list suspension)
    (p : page) : page * list suspension :=
  if disabled then (p, []) else listener p.

Definition begin_keydown (key : string) (p : page) : page * list suspension :=
  let '(p, before) :=
    if String.eqb key "ArrowLeft"
    then begin_click (prevDisabled (shown p)) begin_prev p else (p, []) in
  let '(p, after) :=
    if String.eqb key "ArrowRight"
    then begin_click (nextDisabled (shown p)) begin_next p else (p, []) in
  (p, before ++ after).

Definition begin_list_click (tagName : string) (index : option string) (p : page)
  : page * list suspension :=
  if String.eqb tagName "A" then
    let '(p, ts) := beginLoad (JS.parseInt (Some (JS.string_of_undefined index))) p in
    (with_modals (set_chapterModalVisible false) p, ts)
  else (p, []).

(** The page together with the calls that are suspended. *)
Record world : Type := {
  now : page;
  suspended : list suspension
}.

(** What happens next: an event reaches its listener, or what the [n]-th
    suspended call waits for is there.  [answer] is the answer to the
    request that the call waits for; a call that waits for the body of a
    response reads it from that response, whatever [answer] is. *)
Inductive action : Type :=
| Fire (e : event)
| Settle (n : nat) (answer : fetch_result).

(** The page right after the script's top level: [loadSettings()] has run
    and [init()] waits for the manifest, or has returned. *)
Definition launch (param : option string) (p0 : page) : world :=
  let '(p, ts) := beginInit param (loadSettings p0) in
  {| now := p; suspended := ts |}.

Section Listeners.

Context `{case_table : !JS.CaseTable}.

(** The chapters kept by the search listener for the typed [value]. *)
Definition filteredChapters (value : string) (all : list object) : list object :=
  let searchTerm := JS.toLowerCase value in
  filter (λ c, Is_true (JS.includes (JS.toLowerCase (title (fields c))) searchTerm)) all.

Definition on_search (value : string) (p : page) : page :=
  populateChapterList (filteredChapters value (chapters p)) p.

(** The listener run for an event, with every call of [loadChapter] run to
    its end; [net] is the network as it answers meanwhile. *)
Definition handle (net : network) (e : event) (p : page) : page :=
  match e with
  | PrevClick => on_prev net p
  | NextClick => on_next net p
  | KeyDown key => on_keydown net key p
  | ChapterListBtnClick => with_modals (set_chapterModalVisible true) p
  | SettingsBtnClick => with_modals (set_settingsModalVisible true) p
  | CloseClick ChapterModal => with_modals (set_chapterModalVisible false) p
  | CloseClick SettingsModal => with_modals (set_settingsModalVisible false) p
  | ListClick tagName index => on_list_click net tagName index p
  | SearchInput value => on_search value p
  | FontSizeInput value => applySetting "fontSize" value p
  | LineHeightInput value => applySetting "lineHeight" value p
  | ThemeToggleClick => on_theme_toggle p
  end.

(** The page after a sequence of events, each with the network of its time. *)
Fixpoint run (es : list (network * event)) (p : page) : page :=
  match es with
  | [] => p
  | (net, e) :: es' => run es' (handle net e p)
  end.

(** The listener run for an event, up to the [await] at which the call of
    [loadChapter] it makes, if any, is suspended. *)
Definition dispatch (e : event) (p : page) : page * list suspension :=
  match e with
  | PrevClick => begin_prev p
  | NextClick => begin_next p
  | KeyDown key => begin_keydown key p
  | ChapterListBtnClick => (with_modals (set_chapterModalVisible true) p, [])
  | SettingsBtnClick => (with_modals (set_settingsModalVisible true) p, [])
  | CloseClick ChapterModal => (with_modals (set_chapterModalVisible false) p, [])
  | CloseClick SettingsModal => (with_modals (set_settingsModalVisible false) p, [])
  | ListClick tagName index => begin_list_click tagName index p
  | SearchInput value => (on_search value p, [])
  | FontSizeInput value => (applySetting "fontSize" value p, [])
  | LineHeightInput value => (applySetting "lineHeight" value p, [])
  | ThemeToggleClick => (on_theme_toggle p, [])
  end.

(** One step of the page: a listener runs to its [await], and the call it
    suspends joins the others; or a suspended call goes on, and leaves its
    place to what it suspends next.  An action on a call that is not there
    changes nothing. *)
Definition step (a : action) (w : world) : world :=
  match a with
  | Fire e =>
      let '(p, ts) := dispatch e (now w) in
      {| now := p; suspended := suspended w ++ ts |}
  | Settle n answer =>
      match suspended w !! n with
      | Some t =>
          let '(p, ts) := resume t answer (now w) in
          {| now := p; suspended := delete n (suspended w) ++ ts |}
      | None => w
      end
  end.

Fixpoint steps (acts : list action) (w : world) : world :=
  match acts with
  | [] => w
  | a :: acts' => steps acts' (step a w)
  end.



(** The pages a session goes through when its calls do not overlap: the
    page right after the script's top level ran on the freshly loaded
    document, then one listener at a time. *)
Inductive reachable (p0 : page) : page → Prop :=
| reachable_start param net :
    reachable p0 (start param net p0)
| reachable_step net e p :
    reachable p0 p → reachable p0 (handle net e p).

End Listeners.

(** ** Vocabulary of the specification *)

(** The suspended calls fit the page: a suspended call of [init] is the
    only suspended call and no chapter list is loaded yet; a suspended
    call of [loadChapter] was called with a position of the chapter list. *)
Definition coherent (w : world) : Prop :=
  ∀ t, t ∈ suspended w →
    match load_of t with
    | Some index =>
        ∃ z, index = JS.Int z ∧ 0 ≤ z < Z.of_nat (length (chapters (now w)))
    | None => suspended w = [t] ∧ chapters (now w) = []
    end.

(** The current index is the initial [0], [NaN], or a position of the
    chapter list. *)
Definition index_in_range (p : page) : Prop :=
  currentChapterIndex p = JS.Int 0 ∨ currentChapterIndex p = JS.NaN
  ∨ ∃ z, currentChapterIndex p = JS.Int z ∧ 0 ≤ z < Z.of_nat (length (chapters p)).

(** The last-chapter entry of the page's novel is the one of the storage
    [s] found at load time or the decimal writing of a position of the
    chapter list. *)
Definition last_chapter_initial_or_valid (s : gmap string string) (p : page) : Prop :=
  let key := lastChapterKey (novelFolder p) in
  localStorage p !! key = s !! key
  ∨ ∃ i, 0 ≤ i < Z.of_nat (length (chapters p))
         ∧ localStorage p !! key = Some (JS.to_string (JS.Int i)).

(** The response that decides a chapter load: the fallback's answer when
    the preferred path answered 404, the preferred path's answer otherwise. *)
Definition settled (net : network) (llm raw : string) : fetch_result :=
  match net llm with
  | Rejected => Rejected
  | Resolved response =>
      if status response =? 404 then net raw else Resolved response
  end.

(** The states of the chapter loader's state machine in which a call of
    [loadChapter] ends: the call was ignored by the range guard, it threw
    before the [try] block, it displayed the text, or it failed. *)
Inductive outcome : Type :=
| Ignored
| Threw
| Displayed (body : string)
| Failed.

Definition outcome_of (net : network) (index : JS.number) (p : page) : outcome :=
  if JS.lt index (JS.Int 0)
     || JS.ge index (JS.Int (Z.of_nat (length (chapters p))))
  then Ignored
  else
    match element_at (chapters p) index with
    | None => Threw
    | Some chapter =>
        match snd (fetchChapterText net (llmPath (novelFolder p) chapter)
                     (rawPath (novelFolder p) chapter) p) with
        | Some body => Displayed body
        | None => Failed
        end
    end.

(** A stored last-chapter value is well formed when it is the decimal
    writing of a chapter position, which is what the reader stores. *)
Definition well_formed_index (s : string) : Prop :=
  ∃ i : Z, 0 ≤ i ∧ s = JS.to_string (JS.Int i).

(** What a step from [p] to [p'] may do to the last-chapter entry of
    [folder]: leave it as it is or, when [folder] is the novel of the page,
    set it to the decimal writing of a position of the chapter list. *)
Definition last_chapter_kept_or_valid (folder : option string) (p p' : page) : Prop :=
  let key := lastChapterKey folder in
  localStorage p' !! key = localStorage p !! key
  ∨ (key = lastChapterKey (novelFolder p)
     ∧ ∃ i, 0 ≤ i < Z.of_nat (length (chapters p))
            ∧ localStorage p' !! key = Some (JS.to_string (JS.Int i))).

(** ** Worked examples *)

(** The titles of the examples are ASCII strings, on which [toLowerCase]
    maps the letters [A] to [Z] to [a] to [z] and nothing else. *)
#[global] Instance ascii_case_table : JS.CaseTable := JS.ascii_toLowerCase.

(** The novel "demo" with two chapters. *)
Module Demo.

Definition manifest : list descriptor :=
  [ {| number := "1"; title := "A"; file := "1.txt" |};
    {| number := "2"; title := "B"; file := "2.txt" |} ].

Definition blank_display : display :=
  {| novelTitle := EmptyString; documentTitle := EmptyString;
     chapterContent := InnerHTML EmptyString; chapterIndicator := EmptyString;
     prevDisabled := false; nextDisabled := false; scroll := (0, 0) |}.

Definition blank_dialogs : dialogs :=
  {| chapterList := EmptyString; chapterModalVisible := false;
     settingsModalVisible := false |}.

Definition blank_appearance : appearance :=
  {| fontSizeSlider := "18"; lineHeightSlider := "1.8";
     fontSizeValue := EmptyString; lineHeightValue := EmptyString;
     styleFontSize := EmptyString; styleLineHeight := EmptyString;
     dataTheme := None |}.

(** The page as the browser hands it to the script, with storage [s]. *)
Definition blank (s : gmap string string) : page :=
  fresh blank_display blank_dialogs blank_appearance s.

Definition plain (code : Z) (body : string) : fetch_result :=
  Resolved {| status := code; text := Some body; json := None |}.

(** The response that carries the manifest [entries]. *)
Definition listing (entries : list descriptor) : response :=
  {| status := 200; text := None; json := Some entries |}.

(** A server holding the manifest and the processed text of both chapters. *)
Definition server : network := λ path,
  if String.eqb path "demo/manifest.json" then Resolved (listing manifest)
  else if String.eqb path "demo/llm_chapters/1.txt" then plain 200 "one"
  else if String.eqb path "demo/llm_chapters/2.txt" then plain 200 "two"
  else plain 404 "Not Found".

(** A server holding only raw chapter texts. *)
Definition raw_server : network := λ path,
  if String.eqb path "demo/raw_chapters/1.txt" then plain 200 "raw one"
  else if String.eqb path "demo/raw_chapters/2.txt" then plain 200 "raw two"
  else plain 404 "Not Found".

(** A server that answers every request with status 500. *)
Definition broken : network := λ _, plain 500 "Internal Server Error".

(** A network that is down. *)
Definition offline : network := λ _, Rejected.

(** The page once the first chapter is displayed. *)
Definition opened : page := start (Some "demo") server (blank ∅).

(** The same page with no call suspended. *)
Definition idle : world := {| now := opened; suspended := [] |}.

(** How the page gets there step by step: the manifest arrives, its body
    is read, the preferred path of the first chapter is answered, its text
    is read. *)
Definition arrival : list action :=
  [ Settle 0 (server "demo/manifest.json");
    Settle 0 (server "demo/manifest.json");
    Settle 0 (server "demo/llm_chapters/1.txt");
    Settle 0 (server "demo/llm_chapters/1.txt") ].

End Demo.

(** The novel "saga" with three chapters, for loads that overlap. *)
Module Saga.

Definition manifest : list descriptor :=
  [ {| number := "1"; title := "A"; file := "1.txt" |};
    {| number := "2"; title := "B"; file := "2.txt" |};
    {| number := "3"; title := "C"; file := "3.txt" |} ].

Definition server : network := λ path,
  if String.eqb path "saga/manifest.json" then Resolved (Demo.listing manifest)
  else if String.eqb path "saga/llm_chapters/1.txt" then Demo.plain 200 "one"
  else if String.eqb path "saga/llm_chapters/2.txt" then Demo.plain 200 "two"
  else if String.eqb path "saga/llm_chapters/3.txt" then Demo.plain 200 "three"
  else Demo.plain 404 "Not Found".

(** The first chapter is displayed and no call is suspended. *)
Definition opened : page := start (Some "saga") server (Demo.blank ∅).

Definition idle : world := {| now := opened; suspended := [] |}.

Definition arrival : list action :=
  [ Settle 0 (server "saga/manifest.json");
    Settle 0 (server "saga/manifest.json");
    Settle 0 (server "saga/llm_chapters/1.txt");
    Settle 0 (server "saga/llm_chapters/1.txt") ].



End Saga.

(** The novel "notes", whose first title holds markup. *)
Module Notes.

Definition first_title : string :=
  "A</a><a href=" +:+ dquote +:+ "#" +:+ dquote +:+ " data-index="
  +:+ dquote +:+ "7" +:+ dquote +:+ ">X".

Definition manifest : list descriptor :=
  [ {| number := "1"; title := first_title; file := "1.txt" |};
    {| number := "2"; title := "B"; file := "2.txt" |} ].

Definition server : network := λ path,
  if String.eqb path "notes/manifest.json" then Resolved (Demo.listing manifest)
  else if String.eqb path "notes/llm_chapters/1.txt" then Demo.plain 200 "one"
  else if String.eqb path "notes/llm_chapters/2.txt" then Demo.plain 200 "two"
  else Demo.plain 404 "Not Found".

Definition opened : page := start (Some "notes") server (Demo.blank ∅).

(** The markup of the chapter list once the manifest is accepted: three
    anchors, with the [data-index] attributes 0, 7 and 1. *)
Definition list_markup : string :=
  "<a href=" +:+ dquote +:+ "#" +:+ dquote +:+ " data-index=" +:+ dquote +:+ "0"
  +:+ dquote +:+ ">1. A</a>"
  +:+ "<a href=" +:+ dquote +:+ "#" +:+ dquote +:+ " data-index=" +:+ dquote +:+ "7"
  +:+ dquote +:+ ">X</a>"
  +:+ "<a href=" +:+ dquote +:+ "#" +:+ dquote +:+ " data-index=" +:+ dquote +:+ "1"
  +:+ dquote +:+ ">2. B</a>".

End Notes.

(** * Properties *)

(** ** Numbers and strings *)

Section Primitives.

Lemma digits_prefix_string_of_uint (u : uint) :
  JS.digits_prefix (NilEmpty.string_of_uint u) = u.
Proof. induction u; cbn; congruence. Qed.

Lemma trim_start_string_of_uint (u : uint) :
  JS.trim_start (NilEmpty.string_of_uint u) = NilEmpty.string_of_uint u.
Proof. destruct u; reflexivity. Qed.

Lemma strip_sign_string_of_uint (u : uint) :
  JS.strip_sign (NilEmpty.string_of_uint u) = (1, NilEmpty.string_of_uint u).
Proof. destruct u; reflexivity. Qed.

(** [parseInt] by the shape of its input: what the sign and the run of
    digits found after the white space make of the result. *)
Lemma parseInt_cases (input : option string) (sign : Z) (rest : string) :
  JS.strip_sign (JS.trim_start (JS.string_of_nullable input)) = (sign, rest) →
  JS.parseInt input =
    if decide (JS.digits_prefix rest = Nil) then JS.NaN
    else if Z.of_uint (JS.digits_prefix rest) <? JS.two_53
         then JS.Int (sign * Z.of_uint (JS.digits_prefix rest))
         else JS.Huge (sign <? 0).
Proof.
  intros H. unfold JS.parseInt. rewrite H.
  destruct (decide (JS.digits_prefix rest = Nil)) as [E|E].
  - now rewrite E.
  - destruct (JS.digits_prefix rest); [contradiction | reflexivity..].
Qed.

Lemma parseInt_unsigned (u : uint) :
  u ≠ Nil → Z.of_uint u < JS.two_53 →
  JS.parseInt (Some (NilEmpty.string_of_uint u)) = JS.Int (Z.of_uint u).
Proof.
  intros Hu Hb. rewrite (parseInt_cases _ 1 (NilEmpty.string_of_uint u)).
  - rewrite digits_prefix_string_of_uint.
    destruct (decide (u = Nil)); [contradiction|].
    destruct (Z.ltb_spec (Z.of_uint u) JS.two_53); [|lia].
    f_equal. apply Z.mul_1_l.
  - cbn [JS.string_of_nullable].
    now rewrite trim_start_string_of_uint, strip_sign_string_of_uint.
Qed.

Lemma parseInt_negative (u : uint) :
  u ≠ Nil → Z.of_uint u < JS.two_53 →
  JS.parseInt (Some (String "-" (NilEmpty.string_of_uint u))) = JS.Int (- Z.of_uint u).
Proof.
  intros Hu Hb. rewrite (parseInt_cases _ (-1) (NilEmpty.string_of_uint u)).
  - rewrite digits_prefix_string_of_uint.
    destruct (decide (u = Nil)); [contradiction|].
    destruct (Z.ltb_spec (Z.of_uint u) JS.two_53); [|lia].
    f_equal; lia.
  - reflexivity.
Qed.

(** Reading back a stored number gives the number. *)
Lemma parseInt_to_string (z : Z) :
  - JS.two_53 < z < JS.two_53 →
  JS.parseInt (Some (JS.to_string (JS.Int z))) = JS.Int z.
Proof.
  intros Hz.
  destruct z as [|q|q]; cbn [JS.to_string Z.to_int NilEmpty.string_of_int].
  - reflexivity.
  - assert (E : Z.of_uint (Pos.to_uint q) = Z.pos q)
      by (unfold Z.of_uint; now rewrite DecimalPos.Unsigned.of_to).
    rewrite parseInt_unsigned, E;
      [reflexivity | apply DecimalPos.Unsigned.to_uint_nonnil | lia].
  - assert (E : Z.of_uint (Pos.to_uint q) = Z.pos q)
      by (unfold Z.of_uint; now rewrite DecimalPos.Unsigned.of_to).
    rewrite parseInt_negative, E;
      [reflexivity | apply DecimalPos.Unsigned.to_uint_nonnil | lia].
Qed.

(** X14: different integers are written differently, so the stored
    last-chapter entry tells the index it was written from. *)
Lemma to_string_inj (a b : Z) :
  JS.to_string (JS.Int a) = JS.to_string (JS.Int b) → a = b.
Proof.
  cbn [JS.to_string]. intros H.
  pose proof (NilEmpty.isi (Z.to_int a)) as Ha.
  pose proof (NilEmpty.isi (Z.to_int b)) as Hb.
  rewrite H, Hb in Ha.
  assert (E : Z.to_int b = Z.to_int a) by congruence.
  rewrite <- (DecimalZ.of_to a), <- (DecimalZ.of_to b). now rewrite E.
Qed.

(** A run of digits that stands for 2^53 or more does not give an
    integer. *)
Lemma parseInt_long_run (input : option string) (sign : Z) (rest : string) :
  JS.strip_sign (JS.trim_start (JS.string_of_nullable input)) = (sign, rest) →
  JS.two_53 ≤ Z.of_uint (JS.digits_prefix rest) →
  JS.parseInt input = JS.Huge (sign <? 0).
Proof.
  intros H Hb. rewrite (parseInt_cases _ _ _ H).
  destruct (decide _) as [E|_].
  - rewrite E in Hb. exfalso. apply Hb. reflexivity.
  - destruct (Z.ltb_spec (Z.of_uint (JS.digits_prefix rest)) JS.two_53);
      [lia | reflexivity].
Qed.


Lemma parseInt_null : JS.parseInt None = JS.NaN.
Proof. reflexivity. Qed.

Lemma or_number_NaN (d : JS.number) : JS.or_number JS.NaN d = d.
Proof. reflexivity. Qed.

Lemma or_number_Int (z : Z) : JS.or_number (JS.Int z) (JS.Int 0) = JS.Int z.
Proof. unfold JS.or_number. destruct (Z.eqb_spec z 0); congruence. Qed.

Lemma or_number_Huge (negative : bool) (d : JS.number) :
  JS.or_number (JS.Huge negative) d = JS.Huge negative.
Proof. reflexivity. Qed.

Lemma or_string_absent (d : string) : JS.or_string None d = d.
Proof. reflexivity. Qed.

Lemma or_string_present (s d : string) :
  s ≠ EmptyString → JS.or_string (Some s) d = s.
Proof. destruct s; [congruence | reflexivity]. Qed.

Lemma append_nil (t : string) : EmptyString +:+ t = t.
Proof. reflexivity. Qed.

Lemma append_cons (c : ascii) (s t : string) :
  String c s +:+ t = String c (s +:+ t).
Proof. reflexivity. Qed.

(** [includes] is the substring relation. *)
Lemma prefix_app (t s : string) :
  String.prefix t s = true ↔ ∃ post, s = t +:+ post.
Proof.
  revert s. induction t as [|c t IH]; intros s.
  - split; [intros _; now exists s | intros _; now destruct s].
  - destruct s as [|d s]; cbn [String.prefix].
    + split; [congruence | intros [post [=]]].
    + destruct (Ascii.ascii_dec c d) as [->|Hne].
      * rewrite IH. split; intros [post Hp]; exists post;
          rewrite append_cons in *; congruence.
      * split; [congruence | intros [post Hp]].
        rewrite append_cons in Hp. congruence.
Qed.

Lemma includes_spec (s t : string) :
  JS.includes s t = true ↔ ∃ pre post, s = pre +:+ t +:+ post.
Proof.
  induction s as [|c s IH]; cbn [JS.includes].
  - rewrite orb_false_r, prefix_app. split.
    + intros [post Hp]. now exists EmptyString, post.
    + intros [pre [post Hp]]. destruct pre; [now exists post | discriminate].
  - rewrite orb_true_iff, prefix_app, IH. split.
    + intros [[post Hp] | [pre [post Hp]]].
      * now exists EmptyString, post.
      * exists (String c pre), post. rewrite append_cons. congruence.
    + intros [pre [post Hp]]. destruct pre as [|d pre].
      * left. now exists post.
      * right. exists pre, post. rewrite append_cons in Hp. congruence.
Qed.

Lemma lower_char_idem (c : ascii) : JS.lower_char (JS.lower_char c) = JS.lower_char c.
Proof.
  destruct c as [[] [] [] [] [] [] [] []]; reflexivity.
Qed.

(** Lower-casing ASCII strings is idempotent: a term and its lower-case
    form select the same titles. *)
Lemma ascii_toLowerCase_idem (s : string) :
  JS.ascii_toLowerCase (JS.ascii_toLowerCase s) = JS.ascii_toLowerCase s.
Proof. induction s; cbn; [reflexivity | now rewrite lower_char_idem, IHs]. Qed.

End Primitives.

Lemma to_string_inj_witness :
  JS.to_string (JS.Int 12) = JS.to_string (JS.Int (10 + 2)) ∧ 12 = 10 + 2.
Proof.
  assert (H : JS.to_string (JS.Int 12) = JS.to_string (JS.Int (10 + 2))) by reflexivity.
  split; [exact H|].
  exact (to_string_inj 12 (10 + 2) H).
Defined.


(** ** Chapter objects *)

Section Objects.

Lemma length_json_objects (base : nat) (ds : list descriptor) :
  length (json_objects base ds) = length ds.
Proof.
  revert base. induction ds as [|d ds IH]; intros base; cbn; [|rewrite IH]; reflexivity.
Qed.

Lemma lookup_json_objects (base : nat) (ds : list descriptor) (j : nat) (c : object) :
  json_objects base ds !! j = Some c →
  oid c = (base + j)%nat ∧ ds !! j = Some (fields c).
Proof.
  revert base j. induction ds as [|d ds IH]; intros base j; cbn; [discriminate|].
  destruct j as [|j]; cbn.
  - intros [= <-]. cbn. split; [lia | reflexivity].
  - intros H. apply IH in H as [-> H]. split; [lia | assumption].
Qed.

(** The objects of a parsed manifest are pairwise distinct, whatever the
    entries are. *)
Lemma json_objects_distinct (base : nat) (ds : list descriptor) (i j : nat)
    (a b : object) :
  json_objects base ds !! i = Some a →
  json_objects base ds !! j = Some b →
  oid a = oid b → i = j.
Proof.
  intros Ha Hb. apply lookup_json_objects in Ha as [-> _].
  apply lookup_json_objects in Hb as [-> _]. lia.
Qed.

End Objects.

(** ** The chapter loader *)

Section Loader.

Variable net : network.

(** The range check lets through the integers that are positions of the
    list, and [NaN]. *)
Lemma guard_spec (index : JS.number) (len : Z) :
  JS.lt index (JS.Int 0) || JS.ge index (JS.Int len) = true
  ↔ (∃ z, index = JS.Int z ∧ (z < 0 ∨ len ≤ z))
    ∨ (∃ negative, index = JS.Huge negative).
Proof.
  destruct index as [z| |negative]; cbn.
  - rewrite orb_true_iff, Z.ltb_lt, Z.geb_le. split.
    + intros H. left. exists z. split; [reflexivity | lia].
    + intros [[z' [[= <-] H]] | [negative [=]]]. lia.
  - split; [discriminate | intros [[z [[=] _]] | [negative [=]]]].
  - split; [eauto | now destruct negative].
Qed.

Lemma element_at_Some (l : list object) (index : JS.number) (c : object) :
  element_at l index = Some c →
  ∃ z, index = JS.Int z ∧ 0 ≤ z < Z.of_nat (length l) ∧ l !! Z.to_nat z = Some c.
Proof.
  destruct index as [z| |negative]; cbn; [|discriminate..].
  destruct (Z.ltb_spec z 0); [discriminate|]. intros Hc.
  exists z. split; [reflexivity|]. split; [|assumption].
  apply lookup_lt_Some in Hc. lia.
Qed.

Lemma element_at_in_range (l : list object) (z : Z) :
  0 ≤ z < Z.of_nat (length l) → ∃ c, element_at l (JS.Int z) = Some c.
Proof.
  intros Hz. cbn. destruct (Z.ltb_spec z 0); [lia|].
  destruct (lookup_lt_is_Some_2 l (Z.to_nat z)) as [c Hc]; [lia|]. eauto.
Qed.

(** The outcome of the [try] block does not depend on the page, only on
    what the network answers. *)
Lemma fetchChapterText_snd (llm raw : string) (p : page) :
  snd (fetchChapterText net llm raw p) =
  match settled net llm raw with
  | Rejected => None
  | Resolved r => if ok r then text r else None
  end.
Proof.
  unfold fetchChapterText, settled, fetch. cbn.
  destruct (net llm) as [|r]; [reflexivity|].
  destruct (status r =? 404); cbn; [|now destruct (ok r)].
  destruct (net raw) as [|r']; [reflexivity | now destruct (ok r')].
Qed.

(** The [try] block only adds to the request log: the preferred path, then
    the fallback path when the preferred one answered 404. *)
Lemma fetchChapterText_fst (llm raw : string) (p : page) :
  fst (fetchChapterText net llm raw p) =
  match net llm with
  | Rejected => log_request llm p
  | Resolved r =>
      if status r =? 404 then log_request raw (log_request llm p)
      else log_request llm p
  end.
Proof.
  unfold fetchChapterText, fetch. cbn.
  destruct (net llm) as [|r]; [reflexivity|].
  destruct (status r =? 404); cbn; [|now destruct (ok r)].
  destruct (net raw) as [|r']; [reflexivity | now destruct (ok r')].
Qed.

(** [loadChapter], one equation per outcome. *)
Lemma loadChapter_Ignored (index : JS.number) (p : page) :
  outcome_of net index p = Ignored → loadChapter net index p = p.
Proof.
  unfold outcome_of, loadChapter.
  destruct (_ || _); [reflexivity|].
  destruct (element_at _ _); [|discriminate].
  now destruct (snd _).
Qed.

Lemma loadChapter_Threw (index : JS.number) (p : page) :
  outcome_of net index p = Threw →
  loadChapter net index p = set_currentChapterIndex index p.
Proof.
  unfold outcome_of, loadChapter.
  destruct (_ || _); [discriminate|]. cbn [chapters set_currentChapterIndex].
  destruct (element_at _ _); [|reflexivity].
  now destruct (snd _).
Qed.

Lemma loadChapter_Failed (index : JS.number) (p : page) :
  outcome_of net index p = Failed →
  ∃ chapter,
    element_at (chapters p) index = Some chapter ∧
    loadChapter net index p =
      with_shown (set_chapterContent (InnerHTML failed_markup))
        (fst (fetchChapterText net
                (llmPath (novelFolder p) chapter) (rawPath (novelFolder p) chapter)
                (with_shown (set_chapterContent (InnerHTML (loading_markup chapter)))
                   (set_currentChapterIndex index p)))).
Proof.
  unfold outcome_of, loadChapter.
  destruct (_ || _); [discriminate|]. cbn [chapters set_currentChapterIndex].
  destruct (element_at _ _) as [chapter|]; [|discriminate].
  intros H. exists chapter. split; [reflexivity|].
  cbn [novelFolder with_shown set_currentChapterIndex].
  rewrite fetchChapterText_snd in H.
  destruct (fetchChapterText _ _ _ _) as [q o] eqn:E.
  assert (o = snd (fetchChapterText net (llmPath (novelFolder p) chapter)
                     (rawPath (novelFolder p) chapter)
                     (with_shown (set_chapterContent (InnerHTML (loading_markup chapter)))
                        (set_currentChapterIndex index p)))) as ->
    by (cbn [novelFolder with_shown set_currentChapterIndex]; now rewrite E).
  rewrite fetchChapterText_snd.
  destruct (settled _ _ _) as [|r]; [reflexivity|].
  destruct (ok r); [|reflexivity]. now destruct (text r).
Qed.

Lemma loadChapter_Displayed (index : JS.number) (p : page) (body : string) :
  outcome_of net index p = Displayed body →
  ∃ chapter,
    element_at (chapters p) index = Some chapter ∧
    loadChapter net index p =
      setItem (lastChapterKey (novelFolder p)) (JS.to_string index)
        (updateUI
           (with_shown (set_scroll (0, 0))
              (with_shown (set_chapterContent (TextContent body))
                 (fst (fetchChapterText net
                         (llmPath (novelFolder p) chapter) (rawPath (novelFolder p) chapter)
                         (with_shown (set_chapterContent (InnerHTML (loading_markup chapter)))
                            (set_currentChapterIndex index p))))))).
Proof.
  unfold outcome_of, loadChapter.
  destruct (_ || _); [discriminate|]. cbn [chapters set_currentChapterIndex].
  destruct (element_at _ _) as [chapter|]; [|discriminate].
  intros H. exists chapter. split; [reflexivity|].
  cbn [novelFolder with_shown set_currentChapterIndex].
  rewrite fetchChapterText_snd in H.
  destruct (fetchChapterText _ _ _ _) as [q o] eqn:E.
  assert (novelFolder q = novelFolder p) as Hq.
  { change q with (fst (q, o)). rewrite <- E, fetchChapterText_fst.
    destruct (net _) as [|r]; [reflexivity|]. now destruct (status r =? 404). }
  assert (o = snd (fetchChapterText net (llmPath (novelFolder p) chapter)
                     (rawPath (novelFolder p) chapter)
                     (with_shown (set_chapterContent (InnerHTML (loading_markup chapter)))
                        (set_currentChapterIndex index p)))) as ->
    by (cbn [novelFolder with_shown set_currentChapterIndex]; now rewrite E).
  rewrite fetchChapterText_snd.
  destruct (settled _ _ _) as [|r]; [discriminate|].
  destruct (ok r); [|discriminate].
  destruct (text r) as [t|]; [|discriminate].
  injection H as <-. cbn [fst]. cbn. now rewrite Hq.
Qed.

End Loader.

Section LoaderOutcomes.

Variable net : network.

Lemma append_inv_head (s a b : string) : s +:+ a = s +:+ b → a = b.
Proof.
  induction s as [|c s IH]; [trivial|].
  rewrite !append_cons. intros [= H]. auto.
Qed.

(** The two candidate locations of a chapter are different paths. *)
Lemma llmPath_neq_rawPath (folder : option string) (chapter : object) :
  llmPath folder chapter ≠ rawPath folder chapter.
Proof.
  unfold llmPath, rawPath. intros H. apply append_inv_head in H.
  rewrite !append_cons in H. congruence.
Qed.

(** Which answers of the network give which outcome. *)
Lemma outcome_of_in_range (z : Z) (p : page) :
  0 ≤ z < Z.of_nat (length (chapters p)) →
  ∃ chapter,
    element_at (chapters p) (JS.Int z) = Some chapter ∧
    outcome_of net (JS.Int z) p =
      match settled net (llmPath (novelFolder p) chapter)
              (rawPath (novelFolder p) chapter) with
      | Rejected => Failed
      | Resolved r =>
          if ok r then match text r with Some body => Displayed body | None => Failed end
          else Failed
      end.
Proof.
  intros Hz. destruct (element_at_in_range (chapters p) z Hz) as [chapter Hc].
  exists chapter. split; [assumption|]. unfold outcome_of.
  destruct (_ || _) eqn:G.
  { apply guard_spec in G as [[z' [[= <-] G]] | [negative [=]]]. lia. }
  rewrite Hc, fetchChapterText_snd.
  destruct (settled _ _ _) as [|r]; [reflexivity|].
  destruct (ok r); [|reflexivity]. now destruct (text r).
Qed.

Lemma outcome_of_Ignored_iff (index : JS.number) (p : page) :
  outcome_of net index p = Ignored
  ↔ (∃ z, index = JS.Int z ∧ (z < 0 ∨ Z.of_nat (length (chapters p)) ≤ z))
    ∨ (∃ negative, index = JS.Huge negative).
Proof.
  rewrite <- guard_spec. unfold outcome_of.
  destruct (_ || _); [tauto|].
  destruct (element_at _ _); [|split; discriminate].
  destruct (snd _); split; discriminate.
Qed.

(** Only a passed range check leads to [Failed] or [Displayed]. *)
Lemma outcome_of_passed (index : JS.number) (p : page) :
  (outcome_of net index p = Failed ∨ ∃ body, outcome_of net index p = Displayed body) →
  ∃ z chapter, index = JS.Int z ∧ 0 ≤ z < Z.of_nat (length (chapters p))
               ∧ element_at (chapters p) index = Some chapter.
Proof.
  unfold outcome_of. destruct (_ || _); [intros [|[]]; discriminate|].
  destruct (element_at _ _) as [chapter|] eqn:E; [|intros [|[]]; discriminate].
  intros _. destruct (element_at_Some _ _ _ E) as [z [-> [Hz _]]]. eauto.
Qed.

(** What the request log holds after the [try] block. *)
Lemma requests_fetchChapterText (llm raw : string) (p : page) :
  requests (fst (fetchChapterText net llm raw p)) =
  requests p ++
    match net llm with
    | Rejected => [llm]
    | Resolved r => if status r =? 404 then [llm; raw] else [llm]
    end.
Proof.
  rewrite fetchChapterText_fst.
  destruct (net llm) as [|r]; [reflexivity|].
  destruct (status r =? 404); cbn; [|reflexivity].
  now rewrite <- app_assoc.
Qed.

(** The [try] block touches nothing but the request log. *)
Lemma fetchChapterText_frame (llm raw : string) (p : page) :
  let q := fst (fetchChapterText net llm raw p) in
  novelFolder q = novelFolder p ∧ chapters q = chapters p ∧
  currentChapterIndex q = currentChapterIndex p ∧ shown q = shown p ∧
  modals q = modals p ∧ look q = look p ∧ localStorage q = localStorage p.
Proof.
  cbv zeta. rewrite fetchChapterText_fst.
  destruct (net llm) as [|r]; [easy|]. now destruct (status r =? 404).
Qed.

(** [loadChapter] never touches the folder, the chapter list, the dialogs
    or the appearance. *)
Lemma loadChapter_frame (index : JS.number) (p : page) :
  let p' := loadChapter net index p in
  novelFolder p' = novelFolder p ∧ chapters p' = chapters p ∧
  modals p' = modals p ∧ look p' = look p.
Proof.
  cbv zeta. destruct (outcome_of net index p) as [| |body|] eqn:O.
  - now rewrite loadChapter_Ignored.
  - now rewrite loadChapter_Threw.
  - destruct (loadChapter_Displayed _ _ _ _ O) as [chapter [_ ->]].
    cbn -[fetchChapterText]. edestruct fetchChapterText_frame as (-> & -> & _ & _ & -> & -> & _).
    easy.
  - destruct (loadChapter_Failed _ _ _ O) as [chapter [_ ->]].
    cbn -[fetchChapterText]. edestruct fetchChapterText_frame as (-> & -> & _ & _ & -> & -> & _).
    easy.
Qed.

(** Every load except a displayed one leaves the storage alone. *)
Lemma loadChapter_storage (index : JS.number) (p : page) :
  localStorage (loadChapter net index p) =
  match outcome_of net index p with
  | Displayed _ =>
      <[lastChapterKey (novelFolder p) := JS.to_string index]> (localStorage p)
  | _ => localStorage p
  end.
Proof.
  destruct (outcome_of net index p) as [| |body|] eqn:O.
  - now rewrite loadChapter_Ignored.
  - now rewrite loadChapter_Threw.
  - destruct (loadChapter_Displayed _ _ _ _ O) as [chapter [_ ->]].
    cbn -[fetchChapterText]. now edestruct fetchChapterText_frame as (_ & _ & _ & _ & _ & _ & ->).
  - destruct (loadChapter_Failed _ _ _ O) as [chapter [_ ->]].
    cbn -[fetchChapterText]. now edestruct fetchChapterText_frame as (_ & _ & _ & _ & _ & _ & ->).
Qed.

(** The current index is assigned as soon as the range check is passed. *)
Lemma loadChapter_index (index : JS.number) (p : page) :
  currentChapterIndex (loadChapter net index p) =
  match outcome_of net index p with
  | Ignored => currentChapterIndex p
  | _ => index
  end.
Proof.
  destruct (outcome_of net index p) as [| |body|] eqn:O.
  - now rewrite loadChapter_Ignored.
  - now rewrite loadChapter_Threw.
  - destruct (loadChapter_Displayed _ _ _ _ O) as [chapter [_ ->]].
    cbn -[fetchChapterText].
    now edestruct fetchChapterText_frame as (_ & _ & -> & _).
  - destruct (loadChapter_Failed _ _ _ O) as [chapter [_ ->]].
    cbn -[fetchChapterText].
    now edestruct fetchChapterText_frame as (_ & _ & -> & _).
Qed.

End LoaderOutcomes.

(** ** Calls suspended at an [await] *)

Section Suspension.

(** [loadChapter] is the call started by [beginLoad] and resumed, with the
    answers of the network, until it ends: at most three times (preferred
    path, fallback path, text). *)
Lemma loadChapter_uninterrupted (net : network) (index : JS.number) (p : page) :
  loadChapter net index p
  = complete net 3 (snd (beginLoad index p)) (fst (beginLoad index p)).
Proof.
  unfold loadChapter, beginLoad.
  destruct (_ || _); [reflexivity|].
  cbn [chapters set_currentChapterIndex].
  destruct (element_at _ _) as [chapter|]; [|reflexivity].
  cbn [fst snd complete resume awaited fetchChapterText fetch novelFolder
       with_shown set_currentChapterIndex log_request].
  unfold fetchChapterText, fetch.
  match goal with |- context [net ?path] => destruct (net path) as [|r] end;
    [reflexivity|].
  destruct (status r =? 404).
  - cbn [complete resume awaited].
    match goal with |- context [net ?path] => destruct (net path) as [|r'] end;
      [reflexivity|].
    unfold afterFetch. destruct (ok r'); [|reflexivity].
    cbn [complete resume awaited]. now destruct (text r').
  - unfold afterFetch. destruct (ok r); [|reflexivity].
    cbn [complete resume awaited]. now destruct (text r).
Qed.

(** X16: [init], run with nothing in between, is the call started by
    [beginInit] and resumed with the answers of the network until the
    [loadChapter] it calls has ended: at most five times (manifest, body
    of the manifest, preferred path, fallback path, text). *)
Lemma init_uninterrupted (param : option string) (net : network) (p : page) :
  init param net p
  = complete net 5 (snd (beginInit param p)) (fst (beginInit param p)).
Proof.
  unfold init, beginInit, fetch.
  destruct (negb _); [reflexivity|].
  cbn [fst snd complete resume awaited].
  match goal with |- context [net ?path] => destruct (net path) as [|r] end;
    [reflexivity|].
  destruct (ok r); [|reflexivity].
  cbn [complete resume awaited].
  destruct (json r) as [entries|]; [|reflexivity].
  rewrite loadChapter_uninterrupted.
  now destruct (beginLoad _ _) as [q ts].
Qed.

(** A call of [loadChapter] that is started is given an integer index,
    which is a position of the chapter list, and waits for the preferred
    path of the chapter at that position. *)
Lemma beginLoad_tasks (index : JS.number) (p : page) (t : suspension) :
  t ∈ snd (beginLoad index p) →
  ∃ z chapter,
    index = JS.Int z ∧ 0 ≤ z < Z.of_nat (length (chapters p)) ∧
    element_at (chapters p) index = Some chapter ∧
    t = AwaitPreferred index (llmPath (novelFolder p) chapter)
          (rawPath (novelFolder p) chapter).
Proof.
  unfold beginLoad. destruct (_ || _); [now intros ?%elem_of_nil|].
  cbn [chapters set_currentChapterIndex].
  destruct (element_at _ _) as [chapter|] eqn:E; [|now intros ?%elem_of_nil].
  cbn [snd novelFolder with_shown set_currentChapterIndex].
  intros ->%list_elem_of_singleton.
  destruct (element_at_Some _ _ _ E) as [z [-> [Hz _]]]. eauto 6.
Qed.

(** A call of [loadChapter] for a position of the list: the index is
    assigned and the placeholder shown before the request is made. *)
Lemma beginLoad_in_range (z : Z) (p : page) :
  0 ≤ z < Z.of_nat (length (chapters p)) →
  ∃ chapter,
    element_at (chapters p) (JS.Int z) = Some chapter ∧
    beginLoad (JS.Int z) p =
      (log_request (llmPath (novelFolder p) chapter)
         (with_shown (set_chapterContent (InnerHTML (loading_markup chapter)))
            (set_currentChapterIndex (JS.Int z) p)),
       [AwaitPreferred (JS.Int z) (llmPath (novelFolder p) chapter)
          (rawPath (novelFolder p) chapter)]).
Proof.
  intros Hz. destruct (element_at_in_range (chapters p) z Hz) as [chapter Hc].
  exists chapter. split; [assumption|]. unfold beginLoad.
  destruct (_ || _) eqn:G.
  { apply guard_spec in G as [[z' [[= <-] G]] | [negative [=]]]. lia. }
  cbn [chapters set_currentChapterIndex]. now rewrite Hc.
Qed.

(** An index that does not pass the range check starts nothing. *)
Lemma beginLoad_out_of_range (z : Z) (p : page) :
  z < 0 ∨ Z.of_nat (length (chapters p)) ≤ z →
  beginLoad (JS.Int z) p = (p, []).
Proof.
  intros Hz. unfold beginLoad. destruct (_ || _) eqn:G; [reflexivity|].
  assert (G' : JS.lt (JS.Int z) (JS.Int 0)
               || JS.ge (JS.Int z) (JS.Int (Z.of_nat (length (chapters p)))) = true)
    by (apply guard_spec; eauto).
  congruence.
Qed.

(** The start of a call changes the current index only when the index it
    is given passes the range check; then that index is the new one. *)
Lemma beginLoad_index (index : JS.number) (p : page) :
  currentChapterIndex (fst (beginLoad index p)) =
  if JS.lt index (JS.Int 0) || JS.ge index (JS.Int (Z.of_nat (length (chapters p))))
  then currentChapterIndex p else index.
Proof.
  unfold beginLoad. destruct (_ || _); [reflexivity|].
  cbn [chapters set_currentChapterIndex]. now destruct (element_at _ _).
Qed.

(** The start of a call leaves the folder, the chapter list, the dialogs,
    the appearance and the storage alone. *)
Lemma beginLoad_frame (index : JS.number) (p : page) :
  let q := fst (beginLoad index p) in
  novelFolder q = novelFolder p ∧ chapters q = chapters p ∧
  modals q = modals p ∧ look q = look p ∧ localStorage q = localStorage p.
Proof.
  cbv zeta. unfold beginLoad. destruct (_ || _); [easy|].
  cbn [chapters set_currentChapterIndex]. now destruct (element_at _ _).
Qed.

(** What resuming a call of [loadChapter] does: the call waits again,
    having at most logged the request of the fallback path; or it ends
    with the failure message; or, from the last [await], with the text. *)
Lemma resume_load (t : suspension) (answer : fetch_result) (p : page) (index : JS.number) :
  load_of t = Some index →
  (∃ t', snd (resume t answer p) = [t'] ∧ load_of t' = Some index ∧
         (fst (resume t answer p) = p
          ∨ ∃ raw, fst (resume t answer p) = log_request raw p))
  ∨ resume t answer p = (showFailure p, [])
  ∨ (∃ r body, t = AwaitText index r ∧ text r = Some body ∧
               resume t answer p = (showChapter index body p, [])).
Proof.
  destruct t as [path|r|i llm raw|i raw|i r]; cbn [load_of]; intros [= <-];
    cbn [resume].
  - destruct answer as [|r]; [auto|].
    destruct (status r =? 404).
    { left. eexists. split; [reflexivity|]. split; [reflexivity|]. right. eauto. }
    unfold afterFetch. destruct (ok r); [|auto].
    left. eexists. split; [reflexivity|]. split; [reflexivity|]. now left.
  - destruct answer as [|r]; [auto|].
    unfold afterFetch. destruct (ok r); [|auto].
    left. eexists. split; [reflexivity|]. split; [reflexivity|]. now left.
  - destruct (text r) as [body|] eqn:Hb; [|auto].
    right; right. exists r, body. auto.
Qed.

(** No resumption of a call of [loadChapter] assigns the current index,
    the folder or the chapter list, and what it suspends next is the same
    call. *)
Lemma resume_load_index (t : suspension) (answer : fetch_result) (p : page)
    (index : JS.number) :
  load_of t = Some index →
  currentChapterIndex (fst (resume t answer p)) = currentChapterIndex p ∧
  novelFolder (fst (resume t answer p)) = novelFolder p ∧
  chapters (fst (resume t answer p)) = chapters p ∧
  ∀ t', t' ∈ snd (resume t answer p) → load_of t' = Some index.
Proof.
  intros Ht.
  destruct (resume_load t answer p index Ht)
    as [(t' & -> & Ht' & [-> | [raw ->]]) | [-> | (r & body & _ & _ & ->)]];
    cbn; repeat split; try (intros t0 H0; apply list_elem_of_singleton in H0 as ->; assumption);
    intros t0 H0; now apply elem_of_nil in H0.
Qed.

(** A resumption writes the storage only when it displays the text, and
    then under the key of the novel, with the index of its call. *)
Lemma resume_load_storage (t : suspension) (answer : fetch_result) (p : page)
    (index : JS.number) :
  load_of t = Some index →
  localStorage (fst (resume t answer p)) = localStorage p
  ∨ localStorage (fst (resume t answer p))
    = <[lastChapterKey (novelFolder p) := JS.to_string index]> (localStorage p).
Proof.
  intros Ht.
  destruct (resume_load t answer p index Ht)
    as [(t' & _ & _ & [-> | [raw ->]]) | [-> | (r & body & _ & _ & ->)]];
    cbn; auto.
Qed.

(** The failure path changes the content area and nothing else. *)
Lemma showFailure_frame (p : page) :
  shown (showFailure p) = set_chapterContent (InnerHTML failed_markup) (shown p) ∧
  currentChapterIndex (showFailure p) = currentChapterIndex p ∧
  localStorage (showFailure p) = localStorage p ∧
  requests (showFailure p) = requests p.
Proof. easy. Qed.

(** X21: the requests of a call of [loadChapter], step by step.  The
    answer to the preferred path makes the call request the fallback path
    when its status is 404, and only then; the answers to the fallback
    path and the body of a response make it request nothing: a call makes
    at most two requests, the preferred path and then the fallback path. *)
Theorem fallback_requested_once (index : JS.number) (llm raw : string)
    (answer : fetch_result) (p : page) :
  (∀ r, answer = Resolved r → status r = 404 →
        resume (AwaitPreferred index llm raw) answer p
        = (log_request raw p, [AwaitFallback index raw])) ∧
  (∀ r, answer = Resolved r → status r ≠ 404 →
        requests (fst (resume (AwaitPreferred index llm raw) answer p)) = requests p ∧
        snd (resume (AwaitPreferred index llm raw) answer p)
        = if ok r then [AwaitText index r] else []) ∧
  (answer = Rejected →
        resume (AwaitPreferred index llm raw) answer p = (showFailure p, [])) ∧
  requests (fst (resume (AwaitFallback index raw) answer p)) = requests p ∧
  (∀ t, t ∈ snd (resume (AwaitFallback index raw) answer p) →
        ∃ r, t = AwaitText index r) ∧
  (∀ r, requests (fst (resume (AwaitText index r) answer p)) = requests p ∧
        snd (resume (AwaitText index r) answer p) = []).
Proof.
  cbn [resume]. unfold afterFetch. repeat match goal with |- _ ∧ _ => split end.
  - intros r -> Hs. apply Z.eqb_eq in Hs. now rewrite Hs.
  - intros r -> Hs. apply Z.eqb_neq in Hs. rewrite Hs. now destruct (ok r).
  - now intros ->.
  - destruct answer as [|r]; [reflexivity|]. now destruct (ok r).
  - destruct answer as [|r]; [now intros t ?%elem_of_nil|].
    destruct (ok r); [|now intros t ?%elem_of_nil].
    intros t ->%list_elem_of_singleton. eauto.
  - intros r. now destruct (text r).
Qed.

End Suspension.

(** ** Chapter loading: range guard, failure, fallback, success *)

Section ChapterLoading.

(** C3: for every index outside [[0, length-1]] (negative, or at least the
    length of the chapter list) [loadChapter] is a no-op: the page it
    returns is the page it was given, so no request was issued and the
    displayed content, the current chapter index and the storage are
    unchanged. *)
Theorem loadChapter_out_of_range (net : network) (z : Z) (p : page) :
  z < 0 ∨ Z.of_nat (length (chapters p)) ≤ z →
  let p' := loadChapter net (JS.Int z) p in
  p' = p ∧
  requests p' = requests p ∧
  chapterContent (shown p') = chapterContent (shown p) ∧
  currentChapterIndex p' = currentChapterIndex p ∧
  localStorage p' = localStorage p.
Proof.
  intros Hz p'. assert (p' = p) as ->; [|easy].
  apply loadChapter_Ignored, outcome_of_Ignored_iff. eauto.
Qed.

Lemma loadChapter_out_of_range_witness :
  (-1 < 0 ∨ Z.of_nat (length (chapters Demo.opened)) ≤ -1) ∧
  loadChapter Demo.server (JS.Int (-1)) Demo.opened = Demo.opened.
Proof.
  assert (H : -1 < 0 ∨ Z.of_nat (length (chapters Demo.opened)) ≤ -1)
    by (left; lia).
  split; [exact H|].
  destruct (loadChapter_out_of_range Demo.server (-1) Demo.opened H) as [E _].
  exact E.
Defined.

(** C1: the specification wants the current index unchanged by a chapter
    load that fails.  The reader assigns the index as soon as the range
    check is passed, before the request, and its failure path does not
    restore it: in the demo, with chapter index 0 on display, a click on
    "next" starts the load of index 1 and suspends it at the request; when
    the request is answered with status 500 the call ends with the retry
    message in the content area and the current index at 1.  The same page
    results when the load runs with nothing in between. *)
Theorem failed_load_moves_index :
  let answer := Demo.broken "demo/llm_chapters/2.txt" in
  let w := steps [Fire NextClick; Settle 0 answer] Demo.idle in
  steps Demo.arrival (launch (Some "demo") (Demo.blank ∅)) = Demo.idle ∧
  currentChapterIndex Demo.opened = JS.Int 0 ∧
  suspended (step (Fire NextClick) Demo.idle)
    = [AwaitPreferred (JS.Int 1) "demo/llm_chapters/2.txt" "demo/raw_chapters/2.txt"] ∧
  currentChapterIndex (now (step (Fire NextClick) Demo.idle)) = JS.Int 1 ∧
  suspended w = [] ∧
  chapterContent (shown (now w)) = InnerHTML failed_markup ∧
  currentChapterIndex (now w) = JS.Int 1 ∧
  currentChapterIndex (now w) ≠ currentChapterIndex Demo.opened ∧
  outcome_of Demo.broken (JS.Int 1) Demo.opened = Failed ∧
  now w = loadChapter Demo.broken (JS.Int 1) Demo.opened.
Proof. vm_compute. repeat split; congruence. Qed.

(** Whatever the page and the index, a load that fails, run with nothing
    in between, leaves the current index at the index it was called with;
    step by step, no resumption of a call assigns the current index
    ([resume_load_index]), so the failure path never restores it. *)
Lemma failed_load_index (net : network) (index : JS.number) (p : page) :
  outcome_of net index p = Failed →
  chapterContent (shown (loadChapter net index p)) = InnerHTML failed_markup ∧
  currentChapterIndex (loadChapter net index p) = index ∧
  localStorage (loadChapter net index p) = localStorage p.
Proof.
  intros O. rewrite loadChapter_index, loadChapter_storage, O.
  split; [|easy].
  now destruct (loadChapter_Failed _ _ _ O) as [c [_ ->]].
Qed.

(** C2: in a chapter load that passes the range check, a preferred path
    answered with status 404 makes the loader request the fallback path,
    once (the log grows by the preferred path and then the fallback path,
    which are different paths); a preferred path that is rejected or
    answered with another status that is not a success makes the load fail
    with the preferred path as the only request; and a fallback that is
    rejected or answered without success makes the load fail. *)
Theorem fallback_policy (net : network) (index : JS.number) (p : page)
    (chapter : object) :
  element_at (chapters p) index = Some chapter →
  let llm := llmPath (novelFolder p) chapter in
  let raw := rawPath (novelFolder p) chapter in
  let p' := loadChapter net index p in
  llm ≠ raw ∧
  (∀ r, net llm = Resolved r → status r = 404 →
        requests p' = requests p ++ [llm; raw]) ∧
  (∀ r, net llm = Resolved r → status r ≠ 404 → ok r = false →
        requests p' = requests p ++ [llm] ∧
        outcome_of net index p = Failed ∧
        chapterContent (shown p') = InnerHTML failed_markup) ∧
  (net llm = Rejected →
        requests p' = requests p ++ [llm] ∧
        outcome_of net index p = Failed ∧
        chapterContent (shown p') = InnerHTML failed_markup) ∧
  (∀ r, net llm = Resolved r → status r = 404 →
        (net raw = Rejected ∨ ∃ r', net raw = Resolved r' ∧ ok r' = false) →
        outcome_of net index p = Failed ∧
        chapterContent (shown p') = InnerHTML failed_markup).
Proof.
  intros Hc llm raw p'.
  destruct (element_at_Some _ _ _ Hc) as [z [-> [Hz _]]].
  destruct (outcome_of_in_range net z p Hz) as [chapter' [Hc' O]].
  rewrite Hc in Hc'. injection Hc' as <-. fold llm raw in O.
  assert (R : requests p' = requests p ++
                match net llm with
                | Rejected => [llm]
                | Resolved r => if status r =? 404 then [llm; raw] else [llm]
                end).
  { subst p'. destruct (outcome_of net (JS.Int z) p) as [| |body|] eqn:O'.
    - apply outcome_of_Ignored_iff in O' as [[z' [[= <-] O']] | [negative [=]]]. lia.
    - unfold outcome_of in O'. destruct (_ || _); [discriminate|].
      rewrite Hc in O'. now destruct (snd _).
    - destruct (loadChapter_Displayed _ _ _ _ O') as [c [Hc' ->]].
      rewrite Hc in Hc'. injection Hc' as <-.
      cbn -[fetchChapterText]. now rewrite requests_fetchChapterText.
    - destruct (loadChapter_Failed _ _ _ O') as [c [Hc' ->]].
      rewrite Hc in Hc'. injection Hc' as <-.
      cbn -[fetchChapterText]. now rewrite requests_fetchChapterText. }
  assert (F : outcome_of net (JS.Int z) p = Failed →
              chapterContent (shown p') = InnerHTML failed_markup).
  { intros O'. subst p'. now destruct (loadChapter_Failed _ _ _ O') as [c [_ ->]]. }
  unfold settled in O.
  split; [apply llmPath_neq_rawPath|].
  split; [|split; [|split]].
  - intros r Hr Hs. rewrite R, Hr. apply Z.eqb_eq in Hs. now rewrite Hs.
  - intros r Hr Hs Hok. rewrite Hr in R, O. apply Z.eqb_neq in Hs.
    rewrite Hs in R, O. rewrite Hok in O. auto.
  - intros Hr. rewrite Hr in R, O. auto.
  - intros r Hr Hs Hraw. rewrite Hr in O. apply Z.eqb_eq in Hs.
    rewrite Hs in O.
    destruct Hraw as [Hraw | [r' [Hraw Hok]]]; rewrite Hraw in O;
      [|rewrite Hok in O]; auto.
Qed.

Lemma fallback_policy_witness :
  element_at (chapters Demo.opened) (JS.Int 1)
    = Some {| oid := 1; fields := {| number := "2"; title := "B"; file := "2.txt" |} |} ∧
  requests (loadChapter Demo.raw_server (JS.Int 1) Demo.opened)
    = requests Demo.opened ++ ["demo/llm_chapters/2.txt"; "demo/raw_chapters/2.txt"].
Proof.
  assert (H : element_at (chapters Demo.opened) (JS.Int 1)
              = Some {| oid := 1;
                        fields := {| number := "2"; title := "B"; file := "2.txt" |} |})
    by (vm_compute; reflexivity).
  split; [exact H|].
  destruct (fallback_policy Demo.raw_server (JS.Int 1) Demo.opened _ H)
    as (_ & H404 & _).
  apply (H404 {| status := 404; text := Some "Not Found"; json := None |});
    vm_compute; reflexivity.
Defined.

End ChapterLoading.

(** ** Navigation controls *)

Section Controls.

(** What [updateUI] computes, for every chapter list and every index. *)
Lemma updateUI_controls (p : page) :
  let p' := updateUI p in
  (prevDisabled (shown p') = true ↔ currentChapterIndex p' = JS.Int 0) ∧
  (nextDisabled (shown p') = true
   ↔ currentChapterIndex p' = JS.Int (Z.of_nat (length (chapters p')) - 1)).
Proof.
  cbn. destruct (currentChapterIndex p) as [z| |negative]; cbn.
  - rewrite !Z.eqb_eq. split; split; congruence.
  - split; split; discriminate.
  - split; split; discriminate.
Qed.

Lemma updateUI_indicator (p : page) :
  chapterIndicator (shown (updateUI p)) =
  "Chapter " +:+ JS.to_string (JS.add (currentChapterIndex p) (JS.Int 1))
  +:+ " / " +:+ JS.to_string (JS.Int (Z.of_nat (length (chapters p)))).
Proof. reflexivity. Qed.

(** The failure path changes the content area and nothing else of the
    display: controls, indicator and scroll position are not refreshed. *)
Lemma failed_load_display (net : network) (index : JS.number) (p : page) :
  outcome_of net index p = Failed →
  shown (loadChapter net index p)
  = set_chapterContent (InnerHTML failed_markup) (shown p).
Proof.
  intros O. destruct (loadChapter_Failed _ _ _ O) as [chapter [_ ->]].
  cbn -[fetchChapterText].
  edestruct fetchChapterText_frame as (_ & _ & _ & -> & _). reflexivity.
Qed.

(** C7: the specification wants the previous control disabled exactly when
    the current index is 0 and the next control disabled exactly when it
    is length-1, for every chapter list of length at least 1.  The reader
    breaks this on its failure path: in the demo, after chapter 1 is
    displayed, a click on "next" whose load fails gives a page of the
    session with two chapters and the current index at 1 where the
    previous control is still disabled and the next control still enabled,
    because the index was assigned before the request and [updateUI] runs
    on the success path only. *)
Lemma controls_stale_after_failed_load :
  let p := handle Demo.broken NextClick Demo.opened in
  reachable (Demo.blank ∅) p ∧
  (1 ≤ length (chapters p))%nat ∧
  ¬ (prevDisabled (shown p) = true ↔ currentChapterIndex p = JS.Int 0) ∧
  ¬ (nextDisabled (shown p) = true
     ↔ currentChapterIndex p = JS.Int (Z.of_nat (length (chapters p)) - 1)).
Proof.
  split; [apply reachable_step, reachable_start|].
  vm_compute. split; [lia|]. split; intros [H1 H2].
  - discriminate H1; reflexivity.
  - discriminate H2; reflexivity.
Qed.

(** On the success path the controls do follow the index: whenever a
    chapter load is displayed, which is when [updateUI] runs, the previous
    control is disabled if and only if the current index is 0 and the next
    control is disabled if and only if the current index is length-1; the
    indicator shows the index plus one out of the length. *)
Theorem controls_when_displayed (net : network) (index : JS.number) (p : page)
    (body : string) :
  outcome_of net index p = Displayed body →
  let p' := loadChapter net index p in
  (prevDisabled (shown p') = true ↔ currentChapterIndex p' = JS.Int 0) ∧
  (nextDisabled (shown p') = true
   ↔ currentChapterIndex p' = JS.Int (Z.of_nat (length (chapters p')) - 1)) ∧
  chapterIndicator (shown p') =
    "Chapter " +:+ JS.to_string (JS.add index (JS.Int 1))
    +:+ " / " +:+ JS.to_string (JS.Int (Z.of_nat (length (chapters p)))).
Proof.
  intros O p'. subst p'.
  destruct (loadChapter_Displayed _ _ _ _ O) as [chapter [_ ->]].
  match goal with
  | |- context [setItem ?k ?v (updateUI ?q)] =>
      change (shown (setItem k v (updateUI q))) with (shown (updateUI q));
      change (currentChapterIndex (setItem k v (updateUI q)))
        with (currentChapterIndex (updateUI q));
      change (chapters (setItem k v (updateUI q))) with (chapters (updateUI q));
      pose proof (updateUI_controls q) as [Hp Hn];
      pose proof (updateUI_indicator q) as Hi
  end.
  split; [exact Hp|]. split; [exact Hn|].
  rewrite Hi. cbn -[fetchChapterText].
  now edestruct fetchChapterText_frame as (_ & -> & -> & _).
Qed.

Lemma controls_when_displayed_witness :
  outcome_of Demo.server (JS.Int 1) Demo.opened = Displayed "two" ∧
  prevDisabled (shown (loadChapter Demo.server (JS.Int 1) Demo.opened)) = false ∧
  nextDisabled (shown (loadChapter Demo.server (JS.Int 1) Demo.opened)) = true ∧
  chapterIndicator (shown (loadChapter Demo.server (JS.Int 1) Demo.opened))
    = "Chapter 2 / 2".
Proof.
  assert (HO : outcome_of Demo.server (JS.Int 1) Demo.opened = Displayed "two")
    by (vm_compute; reflexivity).
  split; [exact HO|].
  destruct (controls_when_displayed Demo.server (JS.Int 1) Demo.opened "two" HO)
    as (Hp & Hn & Hi).
  split; [|split; [|exact Hi]].
  - destruct (prevDisabled _); [|reflexivity].
    apply proj1 in Hp. specialize (Hp eq_refl). vm_compute in Hp. discriminate Hp.
  - apply Hn. vm_compute. reflexivity.
Defined.

End Controls.

(** ** Initialization *)

Section Initialization.

Variable net : network.

(** [init] when the URL names a novel: one equation per result of the
    manifest request. *)
Lemma init_no_manifest (param : option string) (p : page) :
  JS.truthy param = true →
  match net (manifestPath param) with
  | Rejected => True
  | Resolved r => ok r = false ∨ json r = None
  end →
  init param net p =
    with_shown (set_novelTitle "Could not load novel.")
      (log_request (manifestPath param)
         (with_shown (set_documentTitle (JS.replace_hyphens (JS.string_of_nullable param)))
            (with_shown (set_novelTitle (JS.replace_hyphens (JS.string_of_nullable param)))
               (set_novelFolder param p)))).
Proof.
  intros Ht Hn. unfold init, fetch. cbn [novelFolder set_novelFolder with_shown].
  rewrite Ht. cbn [negb]. cbv beta iota zeta.
  cbn [novelFolder set_novelFolder with_shown log_request].
  destruct (net (manifestPath param)) as [|r]; [reflexivity|].
  destruct (ok r); [|reflexivity].
  destruct Hn as [Hn|Hn]; [discriminate | now rewrite Hn].
Qed.

Lemma init_manifest (param : option string) (p : page) (r : response)
    (entries : list descriptor) :
  JS.truthy param = true →
  net (manifestPath param) = Resolved r →
  ok r = true →
  json r = Some entries →
  let q :=
    populateChapterList (json_objects 0 entries)
      (set_chapters (json_objects 0 entries)
         (log_request (manifestPath param)
            (with_shown (set_documentTitle (JS.replace_hyphens (JS.string_of_nullable param)))
               (with_shown (set_novelTitle (JS.replace_hyphens (JS.string_of_nullable param)))
                  (set_novelFolder param p))))) in
  init param net p = loadChapter net (lastChapterIndex q) q.
Proof.
  intros Ht Hn Hok Hj. unfold init, fetch. cbn [novelFolder set_novelFolder with_shown].
  rewrite Ht. cbn [negb]. cbv beta iota zeta.
  cbn [novelFolder set_novelFolder with_shown log_request].
  rewrite Hn, Hok, Hj. reflexivity.
Qed.

(** C8: when the manifest request is rejected (network failure) or
    answered with a status that is not a success, [init] shows the fixed
    message "Could not load novel." in the title, leaves the chapter list
    of the closure and of the picker as they were (no chapter loaded),
    issues the manifest request and no other (no chapter request, no
    retry), and leaves the content area, the current index and the storage
    untouched. *)
Theorem init_manifest_failure (param : option string) (p : page) :
  JS.truthy param = true →
  (net (manifestPath param) = Rejected
   ∨ ∃ r, net (manifestPath param) = Resolved r ∧ ok r = false) →
  let p' := init param net p in
  novelTitle (shown p') = "Could not load novel." ∧
  chapters p' = chapters p ∧
  chapterList (modals p') = chapterList (modals p) ∧
  requests p' = requests p ++ [manifestPath param] ∧
  chapterContent (shown p') = chapterContent (shown p) ∧
  currentChapterIndex p' = currentChapterIndex p ∧
  localStorage p' = localStorage p.
Proof.
  intros Ht Hn p'. subst p'. rewrite init_no_manifest; [easy | assumption |].
  destruct Hn as [-> | [r [-> Hok]]]; auto.
Qed.

(** C10: when the manifest is accepted and the stored last-chapter value
    parses to an index that is at least the number of chapters of that
    manifest, the initial [loadChapter] is ignored: the manifest request is
    the only request, the title shows the readable name of the novel and
    not an error message, and the content area, the current index, the
    navigation controls and the storage are as they were. *)
Theorem init_stale_last_chapter (param : option string) (p : page) (r : response)
    (entries : list descriptor) (z : Z) :
  JS.truthy param = true →
  net (manifestPath param) = Resolved r →
  ok r = true →
  json r = Some entries →
  JS.parseInt (getItem (lastChapterKey param) p) = JS.Int z →
  Z.of_nat (length entries) ≤ z →
  let p' := init param net p in
  requests p' = requests p ++ [manifestPath param] ∧
  chapterContent (shown p') = chapterContent (shown p) ∧
  novelTitle (shown p') = JS.replace_hyphens (JS.string_of_nullable param) ∧
  currentChapterIndex p' = currentChapterIndex p ∧
  prevDisabled (shown p') = prevDisabled (shown p) ∧
  nextDisabled (shown p') = nextDisabled (shown p) ∧
  chapterIndicator (shown p') = chapterIndicator (shown p) ∧
  localStorage p' = localStorage p ∧
  length (chapters p') = length entries.
Proof.
  intros Ht Hn Hok Hj Hz Hlen p'. subst p'.
  rewrite (init_manifest param p r entries Ht Hn Hok Hj).
  match goal with |- context [loadChapter net (lastChapterIndex ?q) ?q] => set (q0 := q) end.
  assert (Hlast : lastChapterIndex q0 = JS.Int z).
  { unfold lastChapterIndex. change (novelFolder q0) with param.
    change (getItem (lastChapterKey param) q0) with (getItem (lastChapterKey param) p).
    rewrite Hz. apply or_number_Int. }
  assert (Hq : length (chapters q0) = length entries).
  { apply length_json_objects. }
  rewrite Hlast, loadChapter_Ignored.
  - now rewrite Hq.
  - apply outcome_of_Ignored_iff. left. exists z. split; [reflexivity|]. right.
    rewrite Hq. assumption.
Qed.

End Initialization.

Lemma init_manifest_failure_witness :
  JS.truthy (Some "demo") = true ∧
  Demo.offline (manifestPath (Some "demo")) = Rejected ∧
  novelTitle (shown (init (Some "demo") Demo.offline (Demo.blank ∅)))
    = "Could not load novel." ∧
  requests (init (Some "demo") Demo.offline (Demo.blank ∅)) = ["demo/manifest.json"].
Proof.
  assert (Ht : JS.truthy (Some "demo") = true) by reflexivity.
  assert (Hn : Demo.offline (manifestPath (Some "demo")) = Rejected) by reflexivity.
  split; [exact Ht|]. split; [exact Hn|].
  destruct (init_manifest_failure Demo.offline (Some "demo") (Demo.blank ∅) Ht
              (or_introl Hn)) as (Htitle & _ & _ & Hreq & _).
  split; [exact Htitle | exact Hreq].
Defined.

Lemma init_stale_last_chapter_witness :
  JS.parseInt (getItem (lastChapterKey (Some "demo"))
                 (Demo.blank {["lastChapter-demo" := "5"]})) = JS.Int 5 ∧
  Z.of_nat (length Demo.manifest) ≤ 5 ∧
  requests (init (Some "demo") Demo.server (Demo.blank {["lastChapter-demo" := "5"]}))
    = ["demo/manifest.json"] ∧
  chapterContent (shown (init (Some "demo") Demo.server
                           (Demo.blank {["lastChapter-demo" := "5"]})))
    = InnerHTML EmptyString.
Proof.
  assert (Hz : JS.parseInt (getItem (lastChapterKey (Some "demo"))
                              (Demo.blank {["lastChapter-demo" := "5"]})) = JS.Int 5)
    by (vm_compute; reflexivity).
  assert (Hlen : Z.of_nat (length Demo.manifest) ≤ 5) by (vm_compute; congruence).
  split; [exact Hz|]. split; [exact Hlen|].
  destruct (init_stale_last_chapter Demo.server (Some "demo")
              (Demo.blank {["lastChapter-demo" := "5"]})
              (Demo.listing Demo.manifest)
              Demo.manifest 5 eq_refl eq_refl eq_refl eq_refl Hz Hlen)
    as (Hreq & Hc & _).
  split; [exact Hreq | exact Hc].
Defined.

(** ** Preferences *)

Section Preferences.

Lemma lastChapterKey_neq_settings (folder : option string) :
  lastChapterKey folder ≠ "fontSize" ∧
  lastChapterKey folder ≠ "lineHeight" ∧
  lastChapterKey folder ≠ "theme".
Proof.
  unfold lastChapterKey. rewrite !append_cons. repeat split; congruence.
Qed.

Lemma applySetting_fontSize (value : string) (p : page) :
  applySetting "fontSize" value p =
  with_look (set_fontSize (value +:+ "px") (value +:+ "px")) (setItem "fontSize" value p).
Proof. reflexivity. Qed.

Lemma applySetting_lineHeight (value : string) (p : page) :
  applySetting "lineHeight" value p =
  with_look (set_lineHeight value value) (setItem "lineHeight" value p).
Proof. reflexivity. Qed.

Lemma applySetting_theme (value : string) (p : page) :
  applySetting "theme" value p =
  with_look (set_dataTheme (Some value)) (setItem "theme" value p).
Proof. reflexivity. Qed.

(** [applySetting] writes the storage at [key] and nowhere else, and leaves
    the closure variables, the display and the request log alone. *)
Lemma applySetting_frame (key value : string) (p : page) :
  let p' := applySetting key value p in
  localStorage p' = <[key := value]> (localStorage p) ∧
  novelFolder p' = novelFolder p ∧ chapters p' = chapters p ∧
  currentChapterIndex p' = currentChapterIndex p ∧ shown p' = shown p ∧
  modals p' = modals p ∧ requests p' = requests p.
Proof.
  unfold applySetting. cbv zeta.
  destruct (String.eqb key "fontSize"); [easy|].
  destruct (String.eqb key "lineHeight"); [easy|].
  now destruct (String.eqb key "theme").
Qed.

(** [loadSettings] in one piece. *)
Lemma loadSettings_eq (p : page) :
  let fontSize := JS.or_string (getItem "fontSize" p) "18" in
  let lineHeight := JS.or_string (getItem "lineHeight" p) "1.8" in
  let theme := JS.or_string (getItem "theme" p) "light" in
  loadSettings p =
  {| novelFolder := novelFolder p; chapters := chapters p;
     currentChapterIndex := currentChapterIndex p; shown := shown p;
     modals := modals p;
     look := {| fontSizeSlider := fontSize; lineHeightSlider := lineHeight;
                fontSizeValue := fontSize +:+ "px"; lineHeightValue := lineHeight;
                styleFontSize := fontSize +:+ "px"; styleLineHeight := lineHeight;
                dataTheme := Some theme |};
     localStorage :=
       <["theme" := theme]>
         (<["lineHeight" := lineHeight]> (<["fontSize" := fontSize]> (localStorage p)));
     requests := requests p |}.
Proof. reflexivity. Qed.

Lemma loadSettings_keeps_last_chapter (folder : option string) (p : page) :
  getItem (lastChapterKey folder) (loadSettings p) = getItem (lastChapterKey folder) p.
Proof.
  destruct (lastChapterKey_neq_settings folder) as (Hf & Hl & Ht).
  rewrite loadSettings_eq. unfold getItem. cbn.
  now rewrite !lookup_insert_ne by congruence.
Qed.

(** The settings logic neither reads nor writes a last-chapter entry:
    storing one before [loadSettings] or after it gives the same page. *)
Lemma loadSettings_independent (folder : option string) (v : string) (p : page) :
  loadSettings (setItem (lastChapterKey folder) v p)
  = setItem (lastChapterKey folder) v (loadSettings p).
Proof.
  destruct (lastChapterKey_neq_settings folder) as (Hf & Hl & Ht).
  rewrite !loadSettings_eq. unfold setItem, getItem. cbn.
  rewrite !lookup_insert_ne by assumption.
  f_equal.
  rewrite (insert_insert_ne _ "fontSize" (lastChapterKey folder)) by congruence.
  rewrite (insert_insert_ne _ "lineHeight" (lastChapterKey folder)) by congruence.
  rewrite (insert_insert_ne _ "theme" (lastChapterKey folder)) by congruence.
  reflexivity.
Qed.

Lemma not_well_formed_1x : ¬ well_formed_index "1x".
Proof.
  intros [i [_ H]]. pose proof (NilEmpty.isi (Z.to_int i)) as P.
  cbn [JS.to_string] in H. rewrite <- H in P. vm_compute in P. discriminate P.
Qed.

(** C5, as stated, fails on both counts.  With [lastChapter-demo] stored
    as 1 when the page is loaded, [loadSettings] does what it does without
    that entry and applies no chapter index: the current index stays 0,
    nothing is requested, the content area is as it was.  And the stored
    value "1x", which is no decimal writing of an index, is not read as 0:
    the session opens on chapter index 1. *)
Lemma loadSettings_skips_last_chapter :
  (let p := setItem "lastChapter-demo" "1" (Demo.blank ∅) in
   loadSettings p = setItem "lastChapter-demo" "1" (loadSettings (Demo.blank ∅)) ∧
   currentChapterIndex (loadSettings p) = JS.Int 0 ∧
   requests (loadSettings p) = [] ∧
   chapterContent (shown (loadSettings p)) = chapterContent (shown p)) ∧
  (let p := start (Some "demo") Demo.server
              (setItem "lastChapter-demo" "1x" (Demo.blank ∅)) in
   ¬ well_formed_index "1x" ∧
   currentChapterIndex p = JS.Int 1 ∧
   chapterContent (shown p) = TextContent "two").
Proof.
  cbv zeta. split.
  - split; [apply (loadSettings_independent (Some "demo"))|].
    repeat split; reflexivity.
  - split; [apply not_well_formed_1x|]. vm_compute. split; reflexivity.
Qed.

(** C5, amended: [loadSettings] reads three keys, [fontSize], [lineHeight]
    and [theme], takes "18", "1.8" and "light" when the entry is absent (or
    empty), and applies each: sliders, captions, style, theme attribute,
    and the value written back to the storage.  It neither reads nor
    changes a last-chapter entry, the current index, the display or the
    request log.  The last-chapter entry is read by [init], once the
    manifest is accepted, under the key of the novel; the index it loads
    is 0 when the entry is absent or does not start (after white space and
    an optional sign) with a decimal digit, and the leading integer of
    the stored string when that integer is below 2^53; a longer run of
    digits gives a number of magnitude 2^53 or more, which is not 0 and
    which the range check of [loadChapter] turns away. *)
Theorem loadSettings_spec (p : page) :
  let fontSize := JS.or_string (getItem "fontSize" p) "18" in
  let lineHeight := JS.or_string (getItem "lineHeight" p) "1.8" in
  let theme := JS.or_string (getItem "theme" p) "light" in
  let p' := loadSettings p in
  (getItem "fontSize" p = None → fontSize = "18") ∧
  (getItem "lineHeight" p = None → lineHeight = "1.8") ∧
  (getItem "theme" p = None → theme = "light") ∧
  look p' =
    {| fontSizeSlider := fontSize; lineHeightSlider := lineHeight;
       fontSizeValue := fontSize +:+ "px"; lineHeightValue := lineHeight;
       styleFontSize := fontSize +:+ "px"; styleLineHeight := lineHeight;
       dataTheme := Some theme |} ∧
  localStorage p' =
    <["theme" := theme]>
      (<["lineHeight" := lineHeight]> (<["fontSize" := fontSize]> (localStorage p))) ∧
  (∀ folder v, loadSettings (setItem (lastChapterKey folder) v p)
               = setItem (lastChapterKey folder) v p') ∧
  (∀ folder, getItem (lastChapterKey folder) p' = getItem (lastChapterKey folder) p) ∧
  currentChapterIndex p' = currentChapterIndex p ∧
  shown p' = shown p ∧
  requests p' = requests p ∧
  (∀ net param r entries,
     JS.truthy param = true → net (manifestPath param) = Resolved r →
     ok r = true → json r = Some entries →
     ∃ q, init param net p = loadChapter net (lastChapterIndex q) q
          ∧ novelFolder q = param ∧ localStorage q = localStorage p
          ∧ chapters q = json_objects 0 entries) ∧
  (getItem (lastChapterKey (novelFolder p)) p = None → lastChapterIndex p = JS.Int 0) ∧
  (∀ s, getItem (lastChapterKey (novelFolder p)) p = Some s →
        JS.digits_prefix (snd (JS.strip_sign (JS.trim_start s))) = Nil →
        lastChapterIndex p = JS.Int 0) ∧
  (∀ s sign rest,
        getItem (lastChapterKey (novelFolder p)) p = Some s →
        JS.strip_sign (JS.trim_start s) = (sign, rest) →
        JS.digits_prefix rest ≠ Nil →
        Z.of_uint (JS.digits_prefix rest) < JS.two_53 →
        lastChapterIndex p = JS.Int (sign * Z.of_uint (JS.digits_prefix rest))) ∧
  (∀ s sign rest,
        getItem (lastChapterKey (novelFolder p)) p = Some s →
        JS.strip_sign (JS.trim_start s) = (sign, rest) →
        JS.two_53 ≤ Z.of_uint (JS.digits_prefix rest) →
        lastChapterIndex p = JS.Huge (sign <? 0)
        ∧ ∀ net q, loadChapter net (lastChapterIndex p) q = q).
Proof.
  cbv zeta. repeat match goal with |- _ ∧ _ => split end; try reflexivity.
  - now intros ->.
  - now intros ->.
  - now intros ->.
  - intros folder v. apply loadSettings_independent.
  - intros folder. apply loadSettings_keeps_last_chapter.
  - intros net param r entries Ht Hn Hok Hj. eexists. split.
    + apply (init_manifest net param p r entries Ht Hn Hok Hj).
    + easy.
  - unfold lastChapterIndex. now intros ->.
  - unfold lastChapterIndex. intros s -> Hd.
    destruct (JS.strip_sign (JS.trim_start s)) as [sign rest] eqn:Hs.
    rewrite (parseInt_cases (Some s) sign rest Hs). cbn [snd] in Hd.
    destruct (decide _); [reflexivity | contradiction].
  - unfold lastChapterIndex. intros s sign rest -> Hs Hd Hb.
    rewrite (parseInt_cases (Some s) sign rest Hs).
    destruct (decide _); [contradiction|].
    destruct (Z.ltb_spec (Z.of_uint (JS.digits_prefix rest)) JS.two_53); [|lia].
    apply or_number_Int.
  - unfold lastChapterIndex. intros s sign rest -> Hs Hb.
    rewrite (parseInt_long_run (Some s) sign rest Hs Hb), or_number_Huge.
    split; [reflexivity|]. intros net q.
    apply loadChapter_Ignored, outcome_of_Ignored_iff. eauto.
Qed.

Lemma loadSettings_spec_witness :
  look (loadSettings (Demo.blank {["fontSize" := "22"]})) =
    {| fontSizeSlider := "22"; lineHeightSlider := "1.8";
       fontSizeValue := "22px"; lineHeightValue := "1.8";
       styleFontSize := "22px"; styleLineHeight := "1.8";
       dataTheme := Some "light" |}.
Proof.
  destruct (loadSettings_spec (Demo.blank {["fontSize" := "22"]}))
    as (_ & _ & _ & H & _).
  exact H.
Defined.

End Preferences.

(** ** Sessions *)

Section Sessions.

Context `{case_table : !JS.CaseTable}.

(** No listener changes the folder or the chapter list. *)
Lemma handle_frame (net : network) (e : event) (p : page) :
  novelFolder (handle net e p) = novelFolder p ∧
  chapters (handle net e p) = chapters p.
Proof.
  assert (L : ∀ index q, novelFolder (loadChapter net index q) = novelFolder q
                         ∧ chapters (loadChapter net index q) = chapters q).
  { intros index q. pose proof (loadChapter_frame net index q) as H. cbv zeta in H. tauto. }
  assert (A : ∀ k v q, novelFolder (applySetting k v q) = novelFolder q
                       ∧ chapters (applySetting k v q) = chapters q).
  { intros k v q. pose proof (applySetting_frame k v q) as H. cbv zeta in H. tauto. }
  destruct e as [| |key| | |[]|tagName index|value|value|value|]; cbn [handle];
    try apply L; try apply A; try easy.
  - unfold on_keydown, click, on_prev, on_next.
    destruct (String.eqb key "ArrowLeft"), (String.eqb key "ArrowRight");
      repeat match goal with
        | |- context [if ?b then _ else _] => destruct b
        end;
      repeat match goal with
        | |- context [loadChapter net ?i ?q] =>
            destruct (L i q) as [-> ->]
        end; easy.
  - unfold on_list_click. destruct (String.eqb tagName "A"); [|easy]. cbn. apply L.
Qed.

(** Closing a dialog and resuming a call of [loadChapter] can be done in
    either order. *)
Lemma resume_with_modals (f : dialogs → dialogs) (t : suspension) (answer : fetch_result)
    (p : page) (index : JS.number) :
  load_of t = Some index →
  resume t answer (with_modals f p)
  = (with_modals f (fst (resume t answer p)), snd (resume t answer p)).
Proof.
  destruct t as [path|r|i llm raw|i raw|i r]; cbn [load_of]; intros [= <-];
    cbn [resume].
  - destruct answer as [|r]; [reflexivity|].
    destruct (status r =? 404); [reflexivity|].
    unfold afterFetch. now destruct (ok r).
  - destruct answer as [|r]; [reflexivity|].
    unfold afterFetch. now destruct (ok r).
  - now destruct (text r).
Qed.

Lemma complete_with_modals (net : network) (f : dialogs → dialogs) (fuel : nat)
    (ts : list suspension) (p : page) :
  (∀ t, t ∈ ts → ∃ index, load_of t = Some index) →
  complete net fuel ts (with_modals f p) = with_modals f (complete net fuel ts p).
Proof.
  revert ts p. induction fuel as [|fuel IH]; intros ts p Hts; [reflexivity|].
  destruct ts as [|t ts]; [reflexivity|]. cbn [complete].
  destruct (Hts t) as [index Ht]; [left|].
  rewrite (resume_with_modals f t (awaited net t) p index Ht).
  destruct (resume_load_index t (awaited net t) p index Ht) as (_ & _ & _ & Hn).
  destruct (resume t (awaited net t) p) as [p' ts']. cbn [fst snd] in *.
  apply IH. eauto.
Qed.

(** X17: each listener of the page, run with its call of [loadChapter] to
    the end, is the listener run to that call's request and the call
    resumed with the answers of the network until it ends; closing the
    picker before or after makes no difference. *)
Lemma handle_uninterrupted (net : network) (e : event) (p : page) :
  handle net e p = complete net 3 (snd (dispatch e p)) (fst (dispatch e p)).
Proof.
  destruct e as [| |key| | |[]|tagName index|value|value|value|];
    cbn [handle dispatch]; try reflexivity.
  - apply loadChapter_uninterrupted.
  - apply loadChapter_uninterrupted.
  - unfold on_keydown, begin_keydown, click, begin_click, on_prev, on_next,
      begin_prev, begin_next.
    destruct (String.eqb_spec key "ArrowLeft") as [->|_].
    + change (String.eqb "ArrowLeft" "ArrowRight") with false. cbv iota.
      destruct (prevDisabled _); [reflexivity|].
      rewrite loadChapter_uninterrupted.
      destruct (beginLoad _ _) as [q ts]. cbn [fst snd]. now rewrite app_nil_r.
    + destruct (String.eqb key "ArrowRight"); [|reflexivity].
      destruct (nextDisabled _); [reflexivity|].
      rewrite loadChapter_uninterrupted.
      now destruct (beginLoad _ _) as [q ts].
  - unfold on_list_click, begin_list_click.
    destruct (String.eqb tagName "A"); [|reflexivity].
    rewrite loadChapter_uninterrupted.
    pose proof (beginLoad_tasks (JS.parseInt (Some (JS.string_of_undefined index))) p) as Hts.
    destruct (beginLoad _ _) as [q ts]. cbn [fst snd] in *.
    symmetry. apply complete_with_modals.
    intros t Ht. destruct (Hts t Ht) as (z & chapter & _ & _ & _ & ->). cbn. eauto.
Qed.

(** The chapter list of a session is empty or is the objects of one
    parsed manifest. *)
Lemma init_chapters (param : option string) (net : network) (p : page) :
  chapters (init param net p) = chapters p
  ∨ ∃ entries, chapters (init param net p) = json_objects 0 entries.
Proof.
  destruct (JS.truthy param) eqn:Ht.
  - destruct (net (manifestPath param)) as [|r] eqn:Hn.
    { left. rewrite init_no_manifest; [reflexivity | assumption | now rewrite Hn]. }
    destruct (ok r) eqn:Hok.
    2: { left. rewrite init_no_manifest; [reflexivity | assumption |].
         rewrite Hn. now left. }
    destruct (json r) as [entries|] eqn:Hj.
    2: { left. rewrite init_no_manifest; [reflexivity | assumption |].
         rewrite Hn. now right. }
    right. exists entries.
    rewrite (init_manifest net param p r entries Ht Hn Hok Hj).
    now destruct (loadChapter_frame net
      (lastChapterIndex (populateChapterList (json_objects 0 entries)
         (set_chapters (json_objects 0 entries)
            (log_request (manifestPath param)
               (with_shown (set_documentTitle (JS.replace_hyphens (JS.string_of_nullable param)))
                  (with_shown (set_novelTitle (JS.replace_hyphens (JS.string_of_nullable param)))
                     (set_novelFolder param p)))))))
      (populateChapterList (json_objects 0 entries)
         (set_chapters (json_objects 0 entries)
            (log_request (manifestPath param)
               (with_shown (set_documentTitle (JS.replace_hyphens (JS.string_of_nullable param)))
                  (with_shown (set_novelTitle (JS.replace_hyphens (JS.string_of_nullable param)))
                     (set_novelFolder param p))))))) as (_ & -> & _).
  - left. unfold init. cbn [novelFolder set_novelFolder]. now rewrite Ht.
Qed.

Lemma reachable_chapters (d : display) (m : dialogs) (a : appearance)
    (s : gmap string string) (p : page) :
  reachable (fresh d m a s) p →
  ∃ entries, chapters p = json_objects 0 entries.
Proof.
  induction 1 as [param net | net e p _ IH].
  - unfold start. destruct (init_chapters param net (loadSettings (fresh d m a s)))
      as [-> | H]; [now exists [] | exact H].
  - destruct (handle_frame net e p) as [_ ->]. exact IH.
Qed.

(** In a session a chapter object sits at one position of the list. *)
Lemma reachable_distinct (d : display) (m : dialogs) (a : appearance)
    (s : gmap string string) (p : page) (i j : nat) (x y : object) :
  reachable (fresh d m a s) p →
  chapters p !! i = Some x → chapters p !! j = Some y → oid x = oid y → i = j.
Proof.
  intros R. destruct (reachable_chapters _ _ _ _ _ R) as [entries ->].
  apply json_objects_distinct.
Qed.

End Sessions.

(** ** Overlapping calls *)

Section Interleavings.

Context `{case_table : !JS.CaseTable}.

(** An index that passes the range check is [NaN] or a position of the
    list. *)
Lemma guard_passed (index : JS.number) (len : Z) :
  JS.lt index (JS.Int 0) || JS.ge index (JS.Int len) = false →
  index = JS.NaN ∨ ∃ z, index = JS.Int z ∧ 0 ≤ z < len.
Proof.
  destruct index as [z| |negative]; cbn.
  - rewrite orb_false_iff, Z.ltb_ge, Z.geb_leb, Z.leb_gt. intros [? ?]. right. eauto.
  - auto.
  - now destruct negative.
Qed.

Lemma beginLoad_index_in_range (index : JS.number) (p : page) :
  index_in_range p → index_in_range (fst (beginLoad index p)).
Proof.
  intros Hp. unfold index_in_range.
  destruct (beginLoad_frame index p) as (_ & -> & _).
  rewrite beginLoad_index.
  destruct (_ || _) eqn:G; [exact Hp|].
  destruct (guard_passed _ _ G) as [-> | H]; auto.
Qed.

(** What a listener does up to the request of the call it starts: the
    folder and the chapter list are kept, the calls it suspends were given
    positions of the chapter list, and no last-chapter entry is written. *)
Lemma dispatch_frame (e : event) (p : page) :
  novelFolder (fst (dispatch e p)) = novelFolder p ∧
  chapters (fst (dispatch e p)) = chapters p ∧
  (∀ t, t ∈ snd (dispatch e p) →
        ∃ z, load_of t = Some (JS.Int z) ∧ 0 ≤ z < Z.of_nat (length (chapters p))) ∧
  (∀ folder, localStorage (fst (dispatch e p)) !! lastChapterKey folder
             = localStorage p !! lastChapterKey folder) ∧
  (index_in_range p → index_in_range (fst (dispatch e p))).
Proof.
  assert (L : ∀ index q,
            novelFolder (fst (beginLoad index q)) = novelFolder q ∧
            chapters (fst (beginLoad index q)) = chapters q ∧
            (∀ t, t ∈ snd (beginLoad index q) →
                  ∃ z, load_of t = Some (JS.Int z)
                       ∧ 0 ≤ z < Z.of_nat (length (chapters q))) ∧
            (∀ folder, localStorage (fst (beginLoad index q)) !! lastChapterKey folder
                       = localStorage q !! lastChapterKey folder) ∧
            (index_in_range q → index_in_range (fst (beginLoad index q)))).
  { intros index q. destruct (beginLoad_frame index q) as (Hf & Hc & _ & _ & Hs).
    split; [exact Hf|]. split; [exact Hc|]. split; [|split].
    - intros t Ht. destruct (beginLoad_tasks index q t Ht) as (z & c & -> & Hz & _ & ->).
      cbn. eauto.
    - intros folder. now rewrite Hs.
    - apply beginLoad_index_in_range. }
  assert (A : ∀ k v q, k = "fontSize" ∨ k = "lineHeight" ∨ k = "theme" →
            novelFolder (applySetting k v q) = novelFolder q ∧
            chapters (applySetting k v q) = chapters q ∧
            (∀ t, t ∈ @nil suspension →
                  ∃ z, load_of t = Some (JS.Int z)
                       ∧ 0 ≤ z < Z.of_nat (length (chapters q))) ∧
            (∀ folder, localStorage (applySetting k v q) !! lastChapterKey folder
                       = localStorage q !! lastChapterKey folder) ∧
            (index_in_range q → index_in_range (applySetting k v q))).
  { intros k v q Hk. destruct (applySetting_frame k v q) as (Hs & Hf & Hc & Hi & _).
    split; [exact Hf|]. split; [exact Hc|]. split; [|split].
    - intros t Ht. now apply elem_of_nil in Ht.
    - intros folder. rewrite Hs. apply lookup_insert_ne.
      destruct (lastChapterKey_neq_settings folder) as (? & ? & ?).
      destruct Hk as [-> | [-> | ->]]; congruence.
    - unfold index_in_range. now rewrite Hi, Hc. }
  assert (N : ∀ q : page,
            novelFolder q = novelFolder q ∧ chapters q = chapters q ∧
            (∀ t, t ∈ @nil suspension →
                  ∃ z, load_of t = Some (JS.Int z)
                       ∧ 0 ≤ z < Z.of_nat (length (chapters q))) ∧
            (∀ folder, localStorage q !! lastChapterKey folder
                       = localStorage q !! lastChapterKey folder) ∧
            (index_in_range q → index_in_range q)).
  { intros q. repeat split; auto. intros t Ht. now apply elem_of_nil in Ht. }
  destruct e as [| |key| | |[]|tagName index|value|value|value|]; cbn [dispatch fst snd];
    try apply L; try (apply A; tauto); try apply (N p).
  - unfold begin_keydown, begin_click, begin_prev, begin_next.
    destruct (String.eqb_spec key "ArrowLeft") as [->|_].
    + change (String.eqb "ArrowLeft" "ArrowRight") with false. cbv iota.
      destruct (prevDisabled _); [apply (N p)|].
      specialize (L (JS.sub (currentChapterIndex p) (JS.Int 1)) p).
      destruct (beginLoad _ _) as [q ts]. cbn [fst snd] in *.
      now rewrite app_nil_r.
    + destruct (String.eqb key "ArrowRight"); [|apply (N p)].
      destruct (nextDisabled _); [apply (N p)|].
      specialize (L (JS.add (currentChapterIndex p) (JS.Int 1)) p).
      now destruct (beginLoad _ _) as [q ts].
  - unfold begin_list_click. destruct (String.eqb tagName "A"); [|apply (N p)].
    specialize (L (JS.parseInt (Some (JS.string_of_undefined index))) p).
    now destruct (beginLoad _ _) as [q ts].
Qed.

(** With no chapter list no listener starts a call. *)
Lemma dispatch_without_chapters (e : event) (p : page) :
  chapters p = [] → snd (dispatch e p) = [].
Proof.
  intros Hc. destruct (dispatch_frame e p) as (_ & _ & Ht & _).
  destruct (snd (dispatch e p)) as [|t ts]; [reflexivity|].
  destruct (Ht t) as (z & _ & Hz); [left|]. rewrite Hc in Hz. cbn in Hz. lia.
Qed.



(** Each step keeps the suspended calls fitting the page, the current
    index in range and the last-chapter entry initial or valid. *)
Lemma step_invariant (s : gmap string string) (a : action) (w : world) :
  coherent w ∧ index_in_range (now w) ∧ last_chapter_initial_or_valid s (now w) →
  novelFolder (now (step a w)) = novelFolder (now w) ∧
  coherent (step a w) ∧ index_in_range (now (step a w))
  ∧ last_chapter_initial_or_valid s (now (step a w)).
Proof.
  intros (Hco & Hi & Hl). destruct a as [e | n answer]; cbn [step].
  - destruct (dispatch_frame e (now w)) as (Hf & Hc & Ht & Hs & Hi').
    pose proof (dispatch_without_chapters e (now w)) as Hnil.
    destruct (dispatch e (now w)) as [q ts]. cbn [fst snd now suspended] in *.
    split; [exact Hf|]. split; [|split].
    + intros t. cbn [now suspended]. intros [Hin | Hin]%elem_of_app.
      * specialize (Hco t Hin). destruct (load_of t) as [index|].
        -- now rewrite Hc.
        -- destruct Hco as [E Hempty]. rewrite Hnil by assumption.
           now rewrite app_nil_r, Hc.
      * destruct (Ht t Hin) as (z & -> & Hz). rewrite Hc. eauto.
    + auto.
    + unfold last_chapter_initial_or_valid in *. cbv zeta in *.
      now rewrite Hf, Hc, Hs.
  - destruct (suspended w !! n) as [t|] eqn:Hn; [|tauto].
    assert (Hin : t ∈ suspended w) by (eapply list_elem_of_lookup_2; eassumption).
    pose proof (Hco t Hin) as Ht.
    destruct (load_of t) as [index|] eqn:Hload.
    + destruct Ht as (z & -> & Hz).
      destruct (resume_load_index t answer (now w) _ Hload) as (Hx & Hf & Hc & Hnext).
      pose proof (resume_load_storage t answer (now w) _ Hload) as Hs.
      destruct (resume t answer (now w)) as [q ts]. cbn [fst snd now suspended] in *.
      split; [exact Hf|]. split; [|split].
      * intros t'. cbn [now suspended]. intros [Hin' | Hin']%elem_of_app.
        -- assert (Hold : t' ∈ suspended w)
             by (eapply list_elem_of_delete_inv; eassumption).
           specialize (Hco t' Hold). destruct (load_of t') as [index'|] eqn:Hload'.
           ++ now rewrite Hc.
           ++ destruct Hco as [E _]. rewrite E in Hin.
              apply list_elem_of_singleton in Hin. congruence.
        -- rewrite (Hnext t' Hin'), Hc. eauto.
      * unfold index_in_range in *. now rewrite Hx, Hc.
      * unfold last_chapter_initial_or_valid in *. cbv zeta in *.
        rewrite Hf, Hc. destruct Hs as [-> | ->]; [exact Hl|].
        right. exists z. split; [exact Hz|]. apply lookup_insert_eq.
    + destruct Ht as [Honly Hempty]. rewrite Honly in Hn.
      destruct n as [|n]; [|discriminate Hn]. rewrite Honly. cbn [delete list_delete app].
      destruct t as [path|r|i llm raw|i raw|i r]; try discriminate Hload; cbn [resume].
      * assert (F : ∀ q : page,
                  novelFolder q = novelFolder (now w) → chapters q = chapters (now w) →
                  currentChapterIndex q = currentChapterIndex (now w) →
                  localStorage q = localStorage (now w) →
                  index_in_range q ∧ last_chapter_initial_or_valid s q).
        { intros q Ef Ec Ei Es.
          unfold index_in_range, last_chapter_initial_or_valid in *. cbv zeta in *.
          now rewrite Ef, Ec, Ei, Es. }
        destruct answer as [|r].
        { cbn [now suspended]. split; [reflexivity|]. split.
          - intros t. cbn [now suspended]. intros Ht. now apply elem_of_nil in Ht.
          - now apply F. }
        destruct (ok r); cbn [now suspended].
        -- split; [reflexivity|]. split; [|tauto].
           intros t. cbn [now suspended]. intros ->%list_elem_of_singleton. cbn. auto.
        -- split; [reflexivity|]. split.
           ++ intros t. cbn [now suspended]. intros Ht. now apply elem_of_nil in Ht.
           ++ now apply F.
      * destruct (json r) as [entries|].
        -- match goal with |- context [beginLoad ?i ?q] =>
             pose proof (beginLoad_frame i q) as (Hf & Hc & _ & _ & Hs);
             pose proof (beginLoad_tasks i q) as Hts;
             pose proof (beginLoad_index_in_range i q) as Hx;
             destruct (beginLoad i q) as [q' ts] eqn:Eb
           end.
           cbn [fst snd now suspended] in *.
           cbn [novelFolder chapters populateChapterList set_chapters with_modals
                localStorage] in Hf, Hc, Hs.
           split; [exact Hf|]. split; [|split].
           ++ intros t. cbn [now suspended]. intros Ht.
              destruct (Hts t Ht) as (z & c & -> & Hz & _ & ->).
              cbn [load_of]. rewrite Hc. cbn in Hz. eauto.
           ++ apply Hx. unfold index_in_range in *. cbn.
              rewrite Hempty in Hi. destruct Hi as [Hi | [Hi | (z & _ & Hz)]]; auto.
              cbn in Hz. lia.
           ++ unfold last_chapter_initial_or_valid in *. cbv zeta in *.
              rewrite Hf, Hs. rewrite Hempty in Hl.
              destruct Hl as [Hl | (i & Hz & _)]; [now left | cbn in Hz; lia].
        -- cbn [now suspended]. split; [reflexivity|]. split; [|split].
           ++ intros t. cbn [now suspended]. intros Ht. now apply elem_of_nil in Ht.
           ++ exact Hi.
           ++ exact Hl.
Qed.

(** The page right after the script's top level. *)
Lemma launch_invariant (d : display) (m : dialogs) (a : appearance)
    (s : gmap string string) (param : option string) :
  let w := launch param (fresh d m a s) in
  novelFolder (now w) = param ∧
  coherent w ∧ index_in_range (now w) ∧ last_chapter_initial_or_valid s (now w).
Proof.
  cbv zeta. unfold launch, beginInit.
  cbn [novelFolder set_novelFolder].
  pose proof (loadSettings_keeps_last_chapter param (fresh d m a s)) as Hk.
  unfold getItem in Hk. cbn [localStorage fresh] in Hk.
  destruct (negb _); cbn [now suspended novelFolder with_shown log_request
                          set_novelFolder].
  - split; [reflexivity|]. split; [|split].
    + intros t. cbn [now suspended]. intros Ht. now apply elem_of_nil in Ht.
    + now left.
    + left. exact Hk.
  - split; [reflexivity|]. split; [|split].
    + intros t. cbn [now suspended]. intros ->%list_elem_of_singleton. cbn. auto.
    + now left.
    + left. exact Hk.
Qed.

Lemma steps_invariant (d : display) (m : dialogs) (a : appearance)
    (s : gmap string string) (param : option string) (acts : list action) :
  let w := steps acts (launch param (fresh d m a s)) in
  novelFolder (now w) = param ∧
  coherent w ∧ index_in_range (now w) ∧ last_chapter_initial_or_valid s (now w).
Proof.
  cbv zeta. pose proof (launch_invariant d m a s param) as H. cbv zeta in H.
  revert H. generalize (launch param (fresh d m a s)).
  induction acts as [|act acts IH]; intros w H; [exact H|].
  cbn [steps]. apply IH. destruct H as (Hf & H).
  destruct (step_invariant s act w H) as (Hf' & H'). split; [congruence | exact H'].
Qed.


End Interleavings.




(** ** Chapter picker and search *)

Section Picker.

Context `{case_table : !JS.CaseTable}.

(** [indexOf] finds the position of an object in a list of distinct
    objects. *)
Lemma indexOf_from_lookup (k : Z) (l : list object) (j : nat) (c : object) :
  (∀ i i' a b, l !! i = Some a → l !! i' = Some b → oid a = oid b → i = i') →
  l !! j = Some c →
  indexOf_from k l c = k + Z.of_nat j.
Proof.
  revert k j. induction l as [|y l IH]; intros k j D Hj; [discriminate|].
  cbn [indexOf_from]. unfold same_object. destruct j as [|j]; cbn in Hj.
  - injection Hj as ->. rewrite Nat.eqb_refl. lia.
  - destruct (Nat.eqb_spec (oid y) (oid c)) as [E|_].
    + specialize (D 0%nat (S j) y c eq_refl Hj E). discriminate D.
    + rewrite (IH (k + 1) j); [lia | | assumption].
      intros i i' a b Ha Hb E. specialize (D (S i) (S i') a b Ha Hb E). lia.
Qed.

(** The [n]-th element kept by a filter, and where it comes from: position
    [j] of the list, before which exactly [n] elements are kept. *)
Lemma filter_lookup_origin {A : Type} (P : A → Prop) `{∀ x, Decision (P x)}
    (l : list A) (n : nat) (x : A) :
  filter P l !! n = Some x →
  ∃ j, l !! j = Some x ∧ P x ∧ length (filter P (take j l)) = n.
Proof.
  revert n. induction l as [|y l IH]; intros n; [discriminate|].
  rewrite filter_cons. destruct (decide (P y)) as [Hy|Hy].
  - destruct n as [|n]; cbn [lookup list_lookup].
    + intros [= <-]. exists 0%nat. auto.
    + intros Hn. destruct (IH n Hn) as (j & Hj & Hx & Hlen).
      exists (S j). cbn [take]. rewrite filter_cons_True by assumption.
      cbn. auto.
  - intros Hn. destruct (IH n Hn) as (j & Hj & Hx & Hlen).
    exists (S j). cbn [take]. rewrite filter_cons_False by assumption. auto.
Qed.

(** X18: the search keeps the chapters of the list whose lower-cased
    title contains the lower-cased term, whatever the case tables are. *)
Lemma filteredChapters_spec (value : string) (all : list object) (c : object) :
  c ∈ filteredChapters value all
  ↔ c ∈ all ∧ ∃ pre post, JS.toLowerCase (title (fields c))
                          = pre +:+ JS.toLowerCase value +:+ post.
Proof.
  unfold filteredChapters. rewrite list_elem_of_filter.
  rewrite Is_true_true, includes_spec. tauto.
Qed.

Lemma filteredChapters_sublist (value : string) (all : list object) :
  filteredChapters value all `sublist_of` all.
Proof. apply sublist_filter. Qed.

(** X19: the [n]-th chapter of a filtered view sits at one position [j]
    of the chapter list of a session, with exactly [n] kept chapters
    before it (so [n ≤ j]), and [chapters.indexOf] gives [j] for it: the
    position written into its anchor is its position in the whole list,
    not in the view. *)
Lemma filteredChapters_origin (d : display) (m : dialogs) (a : appearance)
    (s : gmap string string) (p : page) (value : string) (n : nat) (chap : object) :
  reachable (fresh d m a s) p →
  filteredChapters value (chapters p) !! n = Some chap →
  ∃ j : nat,
    chapters p !! j = Some chap ∧
    (∀ j', chapters p !! j' = Some chap → j' = j) ∧
    length (filteredChapters value (take j (chapters p))) = n ∧
    (n ≤ j)%nat ∧
    indexOf (chapters p) chap = Z.of_nat j.
Proof.
  intros R Hn. pose proof (reachable_distinct d m a s p) as D.
  unfold filteredChapters in Hn.
  destruct (filter_lookup_origin _ _ _ _ Hn) as (j & Hj & _ & Hlen).
  exists j. split; [assumption|]. split; [|split; [|split]].
  - intros j' Hj'. exact (D j' j chap chap R Hj' Hj eq_refl).
  - exact Hlen.
  - rewrite <- Hlen. etransitivity; [apply length_filter|].
    rewrite length_take. lia.
  - unfold indexOf. rewrite (indexOf_from_lookup 0 (chapters p) j chap); [lia | | assumption].
    intros i i' x y Hx Hy E. exact (D i i' x y R Hx Hy E).
Qed.

(** The markup of the chapter list after a search: one anchor for each
    kept chapter, in order, whose [data-index] attribute is written with
    the position of the chapter in the whole list, and whose content is
    the number and the title of the chapter as the manifest has them. *)
Lemma on_search_markup (value : string) (p : page) :
  chapterList (modals (on_search value p))
  = String.concat EmptyString
      (map (λ chap,
              "<a href=" +:+ dquote +:+ "#" +:+ dquote +:+ " data-index=" +:+ dquote
              +:+ JS.to_string (JS.Int (indexOf (chapters p) chap)) +:+ dquote +:+ ">"
              +:+ number (fields chap) +:+ ". " +:+ title (fields chap) +:+ "</a>")
         (filteredChapters value (chapters p))).
Proof. reflexivity. Qed.

(** X20: a click on an anchor whose [data-index] is the decimal writing
    of a position loads that position and closes the picker. *)
Lemma on_list_click_position (net : network) (j : nat) (p : page) :
  Z.of_nat j < JS.two_53 →
  handle net (ListClick "A" (Some (JS.to_string (JS.Int (Z.of_nat j))))) p
  = with_modals (set_chapterModalVisible false)
      (loadChapter net (JS.Int (Z.of_nat j)) p).
Proof.
  intros Hj. cbn [handle]. unfold on_list_click.
  change (String.eqb "A" "A") with true. cbv iota.
  cbn [JS.string_of_undefined]. rewrite parseInt_to_string; [reflexivity | lia].
Qed.

(** A click on anything but an anchor does nothing. *)
Lemma on_list_click_elsewhere (net : network) (tagName : string)
    (index : option string) (p : page) :
  tagName ≠ "A" → handle net (ListClick tagName index) p = p.
Proof.
  intros Hn. cbn [handle]. unfold on_list_click.
  now destruct (String.eqb_spec tagName "A").
Qed.

End Picker.

Lemma filteredChapters_origin_witness :
  reachable (Demo.blank ∅) Demo.opened ∧
  filteredChapters "b" (chapters Demo.opened) !! 0%nat
    = Some {| oid := 1; fields := {| number := "2"; title := "B"; file := "2.txt" |} |} ∧
  indexOf (chapters Demo.opened)
    {| oid := 1; fields := {| number := "2"; title := "B"; file := "2.txt" |} |} = 1.
Proof.
  assert (R : reachable (Demo.blank ∅) Demo.opened) by apply reachable_start.
  assert (Hn : filteredChapters "b" (chapters Demo.opened) !! 0%nat
               = Some {| oid := 1;
                         fields := {| number := "2"; title := "B"; file := "2.txt" |} |})
    by (vm_compute; reflexivity).
  split; [exact R|]. split; [exact Hn|].
  destruct (filteredChapters_origin _ _ _ _ _ "b" 0 _ R Hn)
    as (j & Hj & _ & _ & _ & Hi).
  rewrite Hi.
  destruct j as [|[|j]]; vm_compute in Hj; [discriminate Hj | reflexivity | discriminate Hj].
Defined.

Lemma on_list_click_position_witness :
  Z.of_nat 1 < JS.two_53 ∧
  handle Demo.server (ListClick "A" (Some "1")) Demo.opened
  = with_modals (set_chapterModalVisible false)
      (loadChapter Demo.server (JS.Int 1) Demo.opened).
Proof.
  assert (H : Z.of_nat 1 < JS.two_53) by reflexivity.
  split; [exact H|].
  exact (on_list_click_position Demo.server 1 Demo.opened H).
Defined.

Section PickerMarkup.

(** C6: the specification wants the [n]-th visible entry of the picker to
    load the chapter at its position in the whole list.  The reader puts
    each title into the markup of the list as it is, so a title that holds
    markup adds entries of its own.  In the novel "notes" the title of the
    first of two chapters closes its anchor and opens another one with
    [data-index] 7: the markup of the list holds three anchors, with
    [data-index] 0, 7 and 1.  A click on the second of them calls
    [loadChapter(7)], which the range check turns away: the picker closes
    and no chapter is loaded, although the second chapter of the list is
    "B", at position 1.  The anchors with [data-index] 0 and 1 do load the
    chapters at positions 0 and 1.  The same happens in the view filtered
    by "x", which keeps the first chapter only and shows two entries. *)
Theorem title_markup_adds_picker_entries :
  map (λ c, title (fields c)) (chapters Notes.opened) = [Notes.first_title; "B"] ∧
  chapterList (modals Notes.opened) = Notes.list_markup ∧
  handle Notes.server (ListClick "A" (Some "7")) Notes.opened
    = with_modals (set_chapterModalVisible false) Notes.opened ∧
  (let p := handle Notes.server (ListClick "A" (Some "1")) Notes.opened in
   currentChapterIndex p = JS.Int 1 ∧ chapterContent (shown p) = TextContent "two") ∧
  (let p := handle Notes.server (ListClick "A" (Some "0"))
              (handle Notes.server (ListClick "A" (Some "1")) Notes.opened) in
   currentChapterIndex p = JS.Int 0 ∧ chapterContent (shown p) = TextContent "one") ∧
  (let p := handle Notes.server (SearchInput "x") Notes.opened in
   map (λ c, title (fields c)) (filteredChapters "x" (chapters Notes.opened))
     = [Notes.first_title] ∧
   chapterList (modals p) =
     "<a href=" +:+ dquote +:+ "#" +:+ dquote +:+ " data-index=" +:+ dquote +:+ "0"
     +:+ dquote +:+ ">1. A</a>"
     +:+ "<a href=" +:+ dquote +:+ "#" +:+ dquote +:+ " data-index=" +:+ dquote +:+ "7"
     +:+ dquote +:+ ">X</a>" ∧
   shown (handle Notes.server (ListClick "A" (Some "7")) p) = shown p ∧
   requests (handle Notes.server (ListClick "A" (Some "7")) p) = requests p).
Proof. vm_compute. repeat split; reflexivity. Qed.

End PickerMarkup.

(** ** The persisted last-chapter entry *)

Section LastChapter.

Context `{case_table : !JS.CaseTable}.

Lemma kept (folder : option string) (p p' : page) :
  localStorage p' = localStorage p → last_chapter_kept_or_valid folder p p'.
Proof. intros H. left. now rewrite H. Qed.

(** A call of [loadChapter] writes a last-chapter entry only when a load
    is displayed, and then the entry of the page's novel, with the
    requested index, which is a position of the chapter list. *)
Lemma loadChapter_last_chapter (net : network) (index : JS.number)
    (folder : option string) (p : page) :
  last_chapter_kept_or_valid folder p (loadChapter net index p).
Proof.
  unfold last_chapter_kept_or_valid. cbv zeta. rewrite loadChapter_storage.
  destruct (outcome_of net index p) as [| |body|] eqn:O; try (now left).
  destruct (outcome_of_passed net index p) as (z & chapter & -> & Hz & _);
    [right; eauto|].
  destruct (decide (lastChapterKey folder = lastChapterKey (novelFolder p))) as [E|N].
  - right. split; [assumption|]. exists z. split; [assumption|].
    rewrite E. apply lookup_insert_eq.
  - left. apply lookup_insert_ne. congruence.
Qed.

Lemma applySetting_last_chapter (key value : string) (folder : option string)
    (p : page) :
  key = "fontSize" ∨ key = "lineHeight" ∨ key = "theme" →
  last_chapter_kept_or_valid folder p (applySetting key value p).
Proof.
  intros Hk. left. destruct (applySetting_frame key value p) as [-> _].
  apply lookup_insert_ne.
  destruct (lastChapterKey_neq_settings folder) as (Hf & Hl & Ht).
  destruct Hk as [-> | [-> | ->]]; congruence.
Qed.

(** Every listener keeps the last-chapter entries or writes a valid one. *)
Lemma handle_last_chapter (net : network) (e : event) (folder : option string)
    (p : page) :
  last_chapter_kept_or_valid folder p (handle net e p).
Proof.
  destruct e as [| |key| | |[]|tagName index|value|value|value|]; cbn [handle];
    try (now apply kept); try apply loadChapter_last_chapter;
    try (apply applySetting_last_chapter; tauto).
  - unfold on_keydown, click, on_prev, on_next.
    destruct (String.eqb_spec key "ArrowLeft") as [->|_].
    + change (String.eqb "ArrowLeft" "ArrowRight") with false. cbv iota.
      destruct (prevDisabled _); [now apply kept | apply loadChapter_last_chapter].
    + destruct (String.eqb key "ArrowRight"); [|now apply kept].
      destruct (nextDisabled _); [now apply kept | apply loadChapter_last_chapter].
  - unfold on_list_click. destruct (String.eqb tagName "A"); [|now apply kept].
    apply (loadChapter_last_chapter net
             (JS.parseInt (Some (JS.string_of_undefined index))) folder p).
Qed.

(** [init] keeps the entry of the novel it opens or writes a valid one. *)
Lemma init_last_chapter (param : option string) (net : network) (p : page) :
  let p' := init param net p in
  let key := lastChapterKey (novelFolder p') in
  localStorage p' !! key = localStorage p !! key
  ∨ ∃ i, 0 ≤ i < Z.of_nat (length (chapters p'))
         ∧ localStorage p' !! key = Some (JS.to_string (JS.Int i)).
Proof.
  cbv zeta. destruct (JS.truthy param) eqn:Ht.
  - destruct (net (manifestPath param)) as [|r] eqn:Hn.
    { left. rewrite init_no_manifest; [reflexivity | assumption | now rewrite Hn]. }
    destruct (ok r) eqn:Hok.
    2: { left. rewrite init_no_manifest; [reflexivity | assumption |].
         rewrite Hn. now left. }
    destruct (json r) as [entries|] eqn:Hj.
    2: { left. rewrite init_no_manifest; [reflexivity | assumption |].
         rewrite Hn. now right. }
    rewrite (init_manifest net param p r entries Ht Hn Hok Hj).
    match goal with
    | |- context [loadChapter net (lastChapterIndex ?q) ?q] =>
        remember q as q0 eqn:E
    end.
    assert (Hs : localStorage q0 = localStorage p) by (now subst q0).
    clear E. rewrite <- Hs.
    destruct (loadChapter_frame net (lastChapterIndex q0) q0) as (-> & -> & _).
    destruct (loadChapter_last_chapter net (lastChapterIndex q0) (novelFolder q0) q0)
      as [-> | [_ H]]; [now left | right; exact H].
  - left. unfold init. cbn [novelFolder set_novelFolder]. now rewrite Ht.
Qed.

(** C9: in every page of a session the entry [lastChapter-{novelFolder}]
    is the one found at load time or the decimal writing of a position of
    the chapter list; a call of [loadChapter] changes the storage only
    when the load is displayed, and then it stores the requested index,
    which passed the range check, under that key (an ignored, thrown or
    failed load leaves the storage as it is); and no listener writes
    anything else under that key. *)
Theorem last_chapter_entry_valid (d : display) (m : dialogs) (a : appearance)
    (s : gmap string string) (p : page) :
  reachable (fresh d m a s) p →
  let key := lastChapterKey (novelFolder p) in
  (localStorage p !! key = s !! key
   ∨ ∃ i, 0 ≤ i < Z.of_nat (length (chapters p))
          ∧ localStorage p !! key = Some (JS.to_string (JS.Int i))) ∧
  (∀ net index,
     match outcome_of net index p with
     | Displayed _ =>
         ∃ i, index = JS.Int i ∧ 0 ≤ i < Z.of_nat (length (chapters p))
              ∧ localStorage (loadChapter net index p)
                = <[key := JS.to_string (JS.Int i)]> (localStorage p)
     | _ => localStorage (loadChapter net index p) = localStorage p
     end) ∧
  (∀ net e,
     localStorage (handle net e p) !! key = localStorage p !! key
     ∨ ∃ i, 0 ≤ i < Z.of_nat (length (chapters p))
            ∧ localStorage (handle net e p) !! key = Some (JS.to_string (JS.Int i))).
Proof.
  intros R. cbv zeta. split; [|split].
  - induction R as [param net | net e p R IH].
    + unfold start.
      destruct (init_last_chapter param net (loadSettings (fresh d m a s)))
        as [-> | H]; [left | right; exact H].
      apply (loadSettings_keeps_last_chapter _ (fresh d m a s)).
    + destruct (handle_frame net e p) as [-> ->].
      destruct (handle_last_chapter net e (novelFolder p) p) as [-> | [_ H]];
        [exact IH | right; exact H].
  - intros net index. rewrite loadChapter_storage.
    destruct (outcome_of net index p) as [| |body|] eqn:O; try reflexivity.
    destruct (outcome_of_passed net index p) as (z & chapter & -> & Hz & _);
      [right; eauto|].
    exists z. auto.
  - intros net e.
    destruct (handle_last_chapter net e (novelFolder p) p) as [-> | [_ H]];
      [now left | right; exact H].
Qed.

End LastChapter.

Lemma last_chapter_entry_valid_witness :
  reachable (Demo.blank ∅) (handle Demo.server NextClick Demo.opened) ∧
  ∃ i, 0 ≤ i < 2 ∧
       getItem "lastChapter-demo" (handle Demo.server NextClick Demo.opened)
       = Some (JS.to_string (JS.Int i)).
Proof.
  assert (R : reachable (Demo.blank ∅) (handle Demo.server NextClick Demo.opened))
    by apply reachable_step, reachable_start.
  split; [exact R|].
  destruct (last_chapter_entry_valid _ _ _ _ _ R) as ([H | H] & _).
  - vm_compute in H. discriminate H.
  - exact H.
Defined.


(** * Further properties *)

(** ** Sessions, step by step *)

Section StepwiseSessions.

Context `{case_table : !JS.CaseTable}.

(** A step leaves the chapter list as it is, or loads it where there was
    none. *)
Lemma step_chapters (a : action) (w : world) :
  coherent w →
  chapters (now (step a w)) = chapters (now w)
  ∨ (chapters (now w) = []
     ∧ ∃ entries, chapters (now (step a w)) = json_objects 0 entries).
Proof.
  intros Hco. destruct a as [e | n answer]; cbn [step].
  - destruct (dispatch_frame e (now w)) as (_ & Hc & _).
    destruct (dispatch e (now w)) as [q ts]. now left.
  - destruct (suspended w !! n) as [t|] eqn:Hn; [|now left].
    assert (Hin : t ∈ suspended w) by (eapply list_elem_of_lookup_2; eassumption).
    pose proof (Hco t Hin) as Ht.
    destruct (load_of t) as [index|] eqn:Hload.
    + destruct (resume_load_index t answer (now w) _ Hload) as (_ & _ & Hc & _).
      destruct (resume t answer (now w)) as [q ts]. now left.
    + destruct Ht as [_ Hempty].
      destruct t as [path|r|i llm raw|i raw|i r]; try discriminate Hload; cbn [resume].
      * destruct answer as [|r]; [now left|]. destruct (ok r); now left.
      * destruct (json r) as [entries|]; [|now left].
        right. split; [exact Hempty|]. exists entries.
        match goal with |- context [beginLoad ?i ?q] =>
          pose proof (beginLoad_frame i q) as (_ & Hc & _);
          destruct (beginLoad i q) as [q' ts]
        end.
        exact Hc.
Qed.

Lemma steps_chapters (s : gmap string string) (acts : list action) (w : world) :
  coherent w ∧ index_in_range (now w) ∧ last_chapter_initial_or_valid s (now w) →
  chapters (now (steps acts w)) = chapters (now w)
  ∨ (chapters (now w) = []
     ∧ ∃ entries, chapters (now (steps acts w)) = json_objects 0 entries).
Proof.
  revert w. induction acts as [|a acts IH]; intros w H; [now left|].
  cbn [steps]. destruct (step_invariant s a w H) as (_ & H').
  destruct H as (Hco & _).
  destruct (IH _ H') as [E | [Hempty [entries E]]];
    destruct (step_chapters a w Hco) as [E' | [Hempty' [entries' E']]].
  - left. congruence.
  - right. split; [assumption|]. exists entries'. congruence.
  - right. split; [congruence|]. eauto.
  - right. split; [assumption|]. eauto.
Qed.

(** X1: the last-chapter entry under every interleaving.  Whatever the
    events and the answers of the network are, and in whatever order the
    suspended calls of [init] and [loadChapter] go on, the folder of the
    page is the [novel] parameter and the entry [lastChapter-{novel}] is
    the one found at load time or the decimal writing of a position of
    the chapter list. *)
Theorem interleaved_last_chapter_entry_valid (d : display) (m : dialogs)
    (a : appearance) (s : gmap string string) (param : option string)
    (acts : list action) :
  let w := steps acts (launch param (fresh d m a s)) in
  let key := lastChapterKey param in
  novelFolder (now w) = param ∧
  (localStorage (now w) !! key = s !! key
   ∨ ∃ i, 0 ≤ i < Z.of_nat (length (chapters (now w)))
          ∧ localStorage (now w) !! key = Some (JS.to_string (JS.Int i))).
Proof.
  cbv zeta. pose proof (steps_invariant d m a s param acts) as (Hf & _ & _ & Hl).
  split; [exact Hf|]. unfold last_chapter_initial_or_valid in Hl. cbv zeta in Hl.
  now rewrite Hf in Hl.
Qed.

(** X2: the current index under every interleaving: it is the initial 0,
    [NaN] (after a click on a list entry without a numeric [data-index]),
    or a position of the chapter list; and every suspended call of
    [loadChapter] was called with a position of the chapter list. *)
Theorem interleaved_index_in_range (d : display) (m : dialogs)
    (a : appearance) (s : gmap string string) (param : option string)
    (acts : list action) :
  let w := steps acts (launch param (fresh d m a s)) in
  (currentChapterIndex (now w) = JS.Int 0 ∨ currentChapterIndex (now w) = JS.NaN
   ∨ ∃ z, currentChapterIndex (now w) = JS.Int z
          ∧ 0 ≤ z < Z.of_nat (length (chapters (now w)))) ∧
  (∀ t index, t ∈ suspended w → load_of t = Some index →
     ∃ z, index = JS.Int z ∧ 0 ≤ z < Z.of_nat (length (chapters (now w)))).
Proof.
  cbv zeta. pose proof (steps_invariant d m a s param acts) as (_ & Hco & Hi & _).
  split; [exact Hi|]. intros t index Ht Hload. specialize (Hco t Ht).
  now rewrite Hload in Hco.
Qed.

(** X3: the chapter list is loaded at most once and never changed.  At
    every moment of a session it is empty or the objects of one parsed
    manifest, and once it is not empty it stays what it is. *)
Theorem chapter_list_loaded_once (d : display) (m : dialogs)
    (a : appearance) (s : gmap string string) (param : option string)
    (acts1 acts2 : list action) :
  let w1 := steps acts1 (launch param (fresh d m a s)) in
  let w2 := steps acts2 w1 in
  (chapters (now w1) = [] ∨ ∃ entries, chapters (now w1) = json_objects 0 entries) ∧
  (chapters (now w2) = chapters (now w1) ∨ chapters (now w1) = []).
Proof.
  cbv zeta. split.
  - pose proof (launch_invariant d m a s param) as (_ & H). cbv zeta in H.
    destruct (steps_chapters s acts1 _ H) as [E | [_ E]]; [|now right].
    left. rewrite E. unfold launch, beginInit. now destruct (negb _).
  - pose proof (steps_invariant d m a s param acts1) as (_ & H). cbv zeta in H.
    destruct (steps_chapters s acts2 _ H) as [E | [E _]]; auto.
Qed.

(** With no chapter list a call of [loadChapter] requests and shows
    nothing, and no call is suspended. *)
Lemma beginLoad_without_chapters (index : JS.number) (p : page) :
  chapters p = [] →
  shown (fst (beginLoad index p)) = shown p ∧
  requests (fst (beginLoad index p)) = requests p ∧
  snd (beginLoad index p) = [].
Proof.
  intros Hc. unfold beginLoad. destruct (_ || _); [easy|].
  cbn [chapters set_currentChapterIndex]. rewrite Hc.
  assert (E : element_at [] index = None).
  { destruct index as [z| |negative]; cbn; [|reflexivity..]. now destruct (z <? 0). }
  now rewrite E.
Qed.

Lemma dispatch_without_chapters_frame (e : event) (p : page) :
  chapters p = [] →
  shown (fst (dispatch e p)) = shown p ∧ requests (fst (dispatch e p)) = requests p.
Proof.
  intros Hc.
  assert (L : ∀ index, shown (fst (beginLoad index p)) = shown p
                       ∧ requests (fst (beginLoad index p)) = requests p).
  { intros index. destruct (beginLoad_without_chapters index p Hc) as (? & ? & _). auto. }
  destruct e as [| |key| | |[]|tagName index|value|value|value|]; cbn [dispatch fst];
    try apply L; try easy.
  - unfold begin_keydown, begin_click, begin_prev, begin_next.
    destruct (String.eqb_spec key "ArrowLeft") as [->|_].
    + change (String.eqb "ArrowLeft" "ArrowRight") with false. cbv iota.
      destruct (prevDisabled _); [easy|].
      specialize (L (JS.sub (currentChapterIndex p) (JS.Int 1))).
      now destruct (beginLoad _ _).
    + destruct (String.eqb key "ArrowRight"); [|easy].
      destruct (nextDisabled _); [easy|].
      specialize (L (JS.add (currentChapterIndex p) (JS.Int 1))).
      now destruct (beginLoad _ _).
  - unfold begin_list_click. destruct (String.eqb tagName "A"); [|easy].
    specialize (L (JS.parseInt (Some (JS.string_of_undefined index)))).
    now destruct (beginLoad _ _).
Qed.

Lemma steps_without_chapters (acts : list action) (w : world) :
  chapters (now w) = [] → suspended w = [] →
  suspended (steps acts w) = [] ∧
  requests (now (steps acts w)) = requests (now w) ∧
  shown (now (steps acts w)) = shown (now w) ∧
  chapters (now (steps acts w)) = [] ∧
  ∀ folder, localStorage (now (steps acts w)) !! lastChapterKey folder
            = localStorage (now w) !! lastChapterKey folder.
Proof.
  revert w. induction acts as [|a acts IH]; intros w Hc Hs; [easy|].
  cbn [steps]. destruct a as [e | n answer]; cbn [step].
  - destruct (dispatch_frame e (now w)) as (_ & Hc' & _ & Hk & _).
    destruct (dispatch_without_chapters_frame e (now w) Hc) as (Hsh & Hrq).
    pose proof (dispatch_without_chapters e (now w) Hc) as Hts.
    destruct (dispatch e (now w)) as [q ts]. cbn [fst snd] in *. subst ts.
    rewrite Hs. cbn [app].
    destruct (IH {| now := q; suspended := [] |}) as (E1 & E2 & E3 & E4 & E5);
      [cbn; congruence | reflexivity |].
    cbn [now] in *. rewrite E1, E2, E3, E4, Hsh, Hrq. repeat split.
    intros folder. now rewrite E5, Hk.
  - rewrite Hs. cbn [lookup list_lookup]. now apply IH.
Qed.

(** X4: a page without chapter list and without suspended call is inert.
    Whatever events follow, no call is started, no request is made, the
    display (title, content area, controls, indicator, scroll position)
    stays as it is and no last-chapter entry is written. *)
Theorem no_chapters_no_activity (acts : list action) (w : world) :
  chapters (now w) = [] → suspended w = [] →
  let w' := steps acts w in
  suspended w' = [] ∧ requests (now w') = requests (now w) ∧
  shown (now w') = shown (now w) ∧
  ∀ folder, localStorage (now w') !! lastChapterKey folder
            = localStorage (now w) !! lastChapterKey folder.
Proof.
  intros Hc Hs. cbv zeta.
  destruct (steps_without_chapters acts w Hc Hs) as (? & ? & ? & _ & ?). auto.
Qed.

(** X5: without a novel in the URL ([params.get('novel')] is [null] or
    empty) the title shows "Novel not found in URL." and, whatever events
    follow, no request is ever made and the content area is never
    written. *)
Theorem session_without_novel (d : display) (m : dialogs) (a : appearance)
    (s : gmap string string) (param : option string) (acts : list action) :
  JS.truthy param = false →
  let w := steps acts (launch param (fresh d m a s)) in
  novelTitle (shown (now w)) = "Novel not found in URL." ∧
  requests (now w) = [] ∧
  chapterContent (shown (now w)) = chapterContent d ∧
  suspended w = [].
Proof.
  intros Ht. cbv zeta. unfold launch, beginInit.
  cbn [novelFolder set_novelFolder]. rewrite Ht. cbn [negb].
  match goal with |- context [steps acts ?w0] =>
    destruct (steps_without_chapters acts w0) as (-> & -> & -> & _);
      [reflexivity | reflexivity |]
  end.
  easy.
Qed.

Lemma resume_manifest_failure (path : string) (answer : fetch_result) (q : page) :
  (answer = Rejected ∨ ∃ r, answer = Resolved r ∧ ok r = false) →
  resume (AwaitManifest path) answer q = (manifestFailure q, []).
Proof.
  intros [-> | [r [-> Hok]]]; cbn [resume]; [reflexivity | now rewrite Hok].
Qed.

(** X6: when the manifest cannot be had (the request is rejected or
    answered with a status that is not a success) the failure is final:
    the title shows "Could not load novel.", the manifest request stays
    the only request of the session, and whatever events follow no chapter
    is requested and the content area is never written. *)
Theorem session_without_manifest (d : display) (m : dialogs) (a : appearance)
    (s : gmap string string) (param : option string) (answer : fetch_result)
    (acts : list action) :
  JS.truthy param = true →
  (answer = Rejected ∨ ∃ r, answer = Resolved r ∧ ok r = false) →
  let w := steps (Settle 0 answer :: acts) (launch param (fresh d m a s)) in
  novelTitle (shown (now w)) = "Could not load novel." ∧
  requests (now w) = [manifestPath param] ∧
  chapterContent (shown (now w)) = chapterContent d ∧
  suspended w = [].
Proof.
  intros Ht Ha. cbv zeta. unfold launch, beginInit.
  cbn [novelFolder set_novelFolder]. rewrite Ht. cbn [negb].
  cbn [steps step now suspended lookup list_lookup].
  rewrite (resume_manifest_failure _ answer _ Ha). cbn [delete list_delete app].
  match goal with |- context [steps acts ?w0] =>
    destruct (steps_without_chapters acts w0) as (-> & -> & -> & _);
      [reflexivity | reflexivity |]
  end.
  easy.
Qed.

(** X7: "previous" on the first chapter and "next" on the last one do
    nothing: when the current index is an integer [z], a click on previous
    with [z ≤ 0] and a click on next with [length - 1 ≤ z] leave the page
    as it is and start no call. *)
Theorem navigation_stops_at_the_ends (z : Z) (p : page) :
  currentChapterIndex p = JS.Int z →
  (z ≤ 0 → dispatch PrevClick p = (p, [])) ∧
  (Z.of_nat (length (chapters p)) - 1 ≤ z → dispatch NextClick p = (p, [])).
Proof.
  intros Hz. cbn [dispatch]. unfold begin_prev, begin_next. rewrite Hz.
  cbn [JS.sub JS.add]. split; intros H; apply beginLoad_out_of_range; lia.
Qed.

(** X8: the arrow keys are the two buttons, and no other key does
    anything.  [ArrowLeft] does what a click on the previous button does
    unless that button is disabled, in which case it does nothing;
    [ArrowRight] likewise with the next button; every other key leaves the
    page as it is. *)
Theorem keyboard_navigation (key : string) (p : page) :
  dispatch (KeyDown "ArrowLeft") p
    = (if prevDisabled (shown p) then (p, []) else dispatch PrevClick p) ∧
  dispatch (KeyDown "ArrowRight") p
    = (if nextDisabled (shown p) then (p, []) else dispatch NextClick p) ∧
  (key ≠ "ArrowLeft" → key ≠ "ArrowRight" → dispatch (KeyDown key) p = (p, [])).
Proof.
  cbn [dispatch]. unfold begin_keydown, begin_click. split; [|split].
  - change (String.eqb "ArrowLeft" "ArrowLeft") with true.
    change (String.eqb "ArrowLeft" "ArrowRight") with false. cbv iota.
    destruct (prevDisabled _); [reflexivity|].
    destruct (begin_prev p) as [q ts]. now rewrite app_nil_r.
  - change (String.eqb "ArrowRight" "ArrowLeft") with false.
    change (String.eqb "ArrowRight" "ArrowRight") with true. cbv iota.
    destruct (nextDisabled _); [reflexivity|].
    now destruct (begin_next p) as [q ts].
  - intros Hl Hr.
    destruct (String.eqb_spec key "ArrowLeft"); [contradiction|].
    destruct (String.eqb_spec key "ArrowRight"); [contradiction | reflexivity].
Qed.

End StepwiseSessions.

Lemma no_chapters_no_activity_witness :
  chapters (Demo.blank ∅) = [] ∧
  requests (now (steps [Fire NextClick; Fire (ListClick "A" (Some "0"))]
                   {| now := Demo.blank ∅; suspended := [] |})) = [].
Proof.
  assert (H : chapters (Demo.blank ∅) = []) by reflexivity.
  split; [exact H|].
  destruct (no_chapters_no_activity
              [Fire NextClick; Fire (ListClick "A" (Some "0"))]
              {| now := Demo.blank ∅; suspended := [] |} H eq_refl) as (_ & E & _).
  exact E.
Defined.

Lemma session_without_novel_witness :
  JS.truthy None = false ∧
  requests (now (steps [Fire NextClick] (launch None (Demo.blank ∅)))) = [].
Proof.
  assert (Ht : JS.truthy None = false) by reflexivity.
  split; [exact Ht|].
  destruct (session_without_novel Demo.blank_display Demo.blank_dialogs
              Demo.blank_appearance ∅ None [Fire NextClick] Ht) as (_ & E & _).
  exact E.
Defined.

Lemma session_without_manifest_witness :
  JS.truthy (Some "demo") = true ∧
  requests (now (steps [Settle 0 Rejected; Fire NextClick]
                   (launch (Some "demo") (Demo.blank ∅))))
    = ["demo/manifest.json"].
Proof.
  assert (Ht : JS.truthy (Some "demo") = true) by reflexivity.
  split; [exact Ht|].
  destruct (session_without_manifest Demo.blank_display Demo.blank_dialogs
              Demo.blank_appearance ∅ (Some "demo") Rejected [Fire NextClick] Ht
              (or_introl eq_refl)) as (_ & E & _).
  exact E.
Defined.

Lemma navigation_stops_at_the_ends_witness :
  currentChapterIndex Demo.opened = JS.Int 0 ∧
  dispatch PrevClick Demo.opened = (Demo.opened, []).
Proof.
  assert (H : currentChapterIndex Demo.opened = JS.Int 0) by (vm_compute; reflexivity).
  split; [exact H|].
  destruct (navigation_stops_at_the_ends 0 Demo.opened H) as [Hp _].
  apply Hp. lia.
Defined.

(** ** What a page load shows and restores *)

Section PageLoad.






(** X10: the last chapter read is the first chapter requested next time.
    When the storage found at load time holds the decimal writing of [z]
    under [lastChapter-{novel}] and the manifest has more than [z]
    entries, then, once the manifest and its body are there, the current
    index is [z], and the preferred path of the chapter at position [z] is
    requested right after the manifest and waited for. *)
Theorem last_read_is_restored `{case_table : !JS.CaseTable} (d : display)
    (m : dialogs) (a : appearance) (s : gmap string string) (param : option string)
    (r : response) (entries : list descriptor) (answer : fetch_result) (z : Z) :
  JS.truthy param = true →
  ok r = true →
  json r = Some entries →
  s !! lastChapterKey param = Some (JS.to_string (JS.Int z)) →
  0 ≤ z < Z.of_nat (length entries) →
  z < JS.two_53 →
  let w := steps [Settle 0 (Resolved r); Settle 0 answer]
             (launch param (fresh d m a s)) in
  currentChapterIndex (now w) = JS.Int z ∧
  ∃ e, entries !! Z.to_nat z = Some e ∧
       suspended w
       = [AwaitPreferred (JS.Int z)
            (JS.string_of_nullable param +:+ "/llm_chapters/" +:+ file e)
            (JS.string_of_nullable param +:+ "/raw_chapters/" +:+ file e)] ∧
       requests (now w)
       = [manifestPath param;
          JS.string_of_nullable param +:+ "/llm_chapters/" +:+ file e].
Proof.
  intros Ht Hok Hj Hs Hz Hb. cbv zeta. unfold launch, beginInit.
  cbn [novelFolder set_novelFolder]. rewrite Ht. cbn [negb].
  pose proof (loadSettings_keeps_last_chapter param (fresh d m a s)) as Hk.
  unfold getItem in Hk. cbn [localStorage fresh] in Hk. rewrite Hs in Hk.
  assert (Hr : requests (loadSettings (fresh d m a s)) = []) by reflexivity.
  revert Hk Hr. generalize (loadSettings (fresh d m a s)). intros p0 Hk Hr.
  cbn [steps step now suspended lookup list_lookup resume]. rewrite Hok.
  cbn [delete list_delete app now suspended lookup list_lookup resume]. rewrite Hj.
  match goal with |- context [beginLoad (lastChapterIndex ?q) ?q] =>
    remember q as q0 eqn:E
  end.
  assert (Hq : novelFolder q0 = param ∧ chapters q0 = json_objects 0 entries
               ∧ localStorage q0 = localStorage p0
               ∧ requests q0 = requests p0 ++ [manifestPath param])
    by (now subst q0).
  clear E. destruct Hq as (Hqf & Hqc & Hqs & Hqr).
  assert (Hlast : lastChapterIndex q0 = JS.Int z).
  { unfold lastChapterIndex, getItem. rewrite Hqs, Hqf, Hk.
    rewrite parseInt_to_string by (unfold JS.two_53 in *; lia). apply or_number_Int. }
  rewrite Hlast.
  destruct (beginLoad_in_range z q0) as [chapter [Hc ->]].
  { rewrite Hqc, length_json_objects. exact Hz. }
  cbn [now suspended currentChapterIndex with_shown log_request
       set_currentChapterIndex requests].
  split; [reflexivity|].
  destruct (element_at_Some _ _ _ Hc) as (z' & [= <-] & _ & Hl).
  rewrite Hqc in Hl. apply lookup_json_objects in Hl as [_ He].
  exists (fields chapter). split; [exact He|].
  unfold llmPath, rawPath. rewrite Hqf, Hqr, Hr. easy.
Qed.

End PageLoad.


Lemma last_read_is_restored_witness :
  JS.truthy (Some "demo") = true ∧
  ({["lastChapter-demo" := "1"]} : gmap string string) !! lastChapterKey (Some "demo")
    = Some (JS.to_string (JS.Int 1)) ∧
  currentChapterIndex
    (now (steps [Settle 0 (Resolved (Demo.listing Demo.manifest));
             Settle 0 (Resolved (Demo.listing Demo.manifest))]
            (launch (Some "demo") (Demo.blank {["lastChapter-demo" := "1"]}))))
  = JS.Int 1.
Proof.
  assert (Ht : JS.truthy (Some "demo") = true) by reflexivity.
  assert (Hs : ({["lastChapter-demo" := "1"]} : gmap string string)
                 !! lastChapterKey (Some "demo") = Some (JS.to_string (JS.Int 1)))
    by (vm_compute; reflexivity).
  assert (Hz : 0 ≤ 1 < Z.of_nat (length Demo.manifest)) by (vm_compute; split; congruence).
  assert (Hb : 1 < JS.two_53) by reflexivity.
  split; [exact Ht|]. split; [exact Hs|].
  destruct (last_read_is_restored Demo.blank_display Demo.blank_dialogs
              Demo.blank_appearance {["lastChapter-demo" := "1"]} (Some "demo")
              (Demo.listing Demo.manifest) Demo.manifest
              (Resolved (Demo.listing Demo.manifest)) 1
              Ht eq_refl eq_refl Hs Hz Hb) as [E _].
  exact E.
Defined.

(** ** Preferences across page loads *)

Section PreferencesAcrossLoads.

Lemma or_string_nonempty (a : option string) (d : string) :
  d ≠ EmptyString → JS.or_string a d ≠ EmptyString.
Proof. intros Hd. destruct a as [[|c s]|]; cbn; congruence. Qed.

Lemma or_string_fixed (a : option string) (d : string) :
  d ≠ EmptyString → JS.or_string (Some (JS.or_string a d)) d = JS.or_string a d.
Proof.
  intros Hd. apply or_string_present, or_string_nonempty, Hd.
Qed.

(** X11: [loadSettings] is idempotent: running it on the page it produced
    changes nothing, so what it stores is exactly what it would read back
    and apply at the next page load. *)
Theorem loadSettings_idempotent (p : page) :
  loadSettings (loadSettings p) = loadSettings p.
Proof.
  rewrite (loadSettings_eq (loadSettings p)). rewrite !loadSettings_eq.
  unfold getItem. cbn.
  rewrite lookup_insert_ne, lookup_insert_ne, lookup_insert_eq by congruence.
  rewrite lookup_insert_ne, lookup_insert_eq by congruence.
  rewrite lookup_insert_eq.
  rewrite !or_string_fixed by congruence.
  f_equal. apply map_eq. intros k.
  rewrite !lookup_insert. repeat case_decide; congruence.
Qed.

(** X12: a setting survives a page load.  After the font size, the line
    height or the theme has been set to a non-empty value, a later page
    load over the storage this left, whatever the document then looks
    like, applies that value again: slider, caption, style and theme
    attribute.  (An empty value is stored but read back as the default.) *)
Theorem settings_survive_reload (value : string) (p : page)
    (d : display) (m : dialogs) (a : appearance) :
  value ≠ EmptyString →
  let reload q := loadSettings (fresh d m a (localStorage q)) in
  (let l := look (reload (applySetting "fontSize" value p)) in
   fontSizeSlider l = value ∧ styleFontSize l = value +:+ "px"
   ∧ fontSizeValue l = value +:+ "px") ∧
  (let l := look (reload (applySetting "lineHeight" value p)) in
   lineHeightSlider l = value ∧ styleLineHeight l = value
   ∧ lineHeightValue l = value) ∧
  dataTheme (look (reload (applySetting "theme" value p))) = Some value ∧
  fontSizeSlider (look (reload (applySetting "fontSize" EmptyString p))) = "18".
Proof.
  intros Hv. cbv beta zeta. rewrite !loadSettings_eq. unfold getItem. cbn.
  rewrite !lookup_insert_eq. now rewrite !or_string_present by assumption.
Qed.

(** X13: the theme toggle.  After a toggle the theme attribute is "light"
    if it was "dark" and "dark" in every other case (absent included), the
    stored theme is the attribute, and from then on two more toggles bring
    the page back to what it is. *)
Theorem theme_toggle_alternates (p : page) :
  let p1 := on_theme_toggle p in
  dataTheme (look p1)
    = Some (if decide (dataTheme (look p) = Some "dark") then "light" else "dark") ∧
  getItem "theme" p1 = dataTheme (look p1) ∧
  on_theme_toggle (on_theme_toggle p1) = p1.
Proof.
  cbv zeta.
  assert (E : ∃ t, (t = "light" ∨ t = "dark")
                   ∧ t = (if decide (dataTheme (look p) = Some "dark")
                          then "light" else "dark")
                   ∧ on_theme_toggle p
                     = with_look (set_dataTheme (Some t)) (setItem "theme" t p)).
  { unfold on_theme_toggle. rewrite applySetting_theme.
    destruct (dataTheme (look p)) as [t|]; [|exists "dark"; auto].
    destruct (String.eqb_spec t "dark") as [->|Hne].
    - exists "light". auto.
    - exists "dark". rewrite decide_False by congruence. auto. }
  destruct E as (t & Ht & <- & ->).
  split; [reflexivity|]. split; [apply lookup_insert_eq|].
  unfold on_theme_toggle. rewrite !applySetting_theme.
  destruct Ht as [-> | ->]; cbn; unfold setItem, with_look; cbn;
    rewrite !insert_insert_eq; reflexivity.
Qed.

End PreferencesAcrossLoads.

Lemma settings_survive_reload_witness :
  "22" ≠ EmptyString ∧
  styleFontSize (look (loadSettings
     (Demo.blank (localStorage (applySetting "fontSize" "22" Demo.opened))))) = "22px".
Proof.
  assert (H : "22" ≠ EmptyString) by discriminate.
  split; [exact H|].
  destruct (settings_survive_reload "22" Demo.opened Demo.blank_display
              Demo.blank_dialogs Demo.blank_appearance H) as ((_ & E & _) & _).
  exact E.
Defined.

(** ** Scenarios *)

Section Scenarios.

Example parseInt_leading_integer : JS.parseInt (Some "12abc") = JS.Int 12.
Proof. reflexivity. Qed.

Example parseInt_signed : JS.parseInt (Some "  -7") = JS.Int (-7).
Proof. reflexivity. Qed.

Example parseInt_not_a_number : JS.parseInt (Some "abc") = JS.NaN.
Proof. reflexivity. Qed.

(** A no-break space (U+00A0, bytes C2 A0), a byte order mark (U+FEFF,
    bytes EF BB BF) and a line separator (U+2028, bytes E2 80 A8) are
    skipped like a space. *)
Example parseInt_skips_unicode_space :
  JS.parseInt (Some (String (ascii_of_N 194) (String (ascii_of_N 160) "1"))) = JS.Int 1 ∧
  JS.parseInt
    (Some (String (ascii_of_N 239) (String (ascii_of_N 187) (String (ascii_of_N 191) "12"))))
    = JS.Int 12 ∧
  JS.parseInt
    (Some (String (ascii_of_N 226) (String (ascii_of_N 128) (String (ascii_of_N 168) " 3"))))
    = JS.Int 3.
Proof. repeat split; reflexivity. Qed.

(** Characters that are no white space are not skipped: a zero width
    space (U+200B, bytes E2 80 8B), a letter with an accent (U+00E9, bytes
    C3 A9), a next-line control (U+0085, bytes C2 85). *)
Example parseInt_keeps_other_characters :
  JS.parseInt
    (Some (String (ascii_of_N 226) (String (ascii_of_N 128) (String (ascii_of_N 139) "1"))))
    = JS.NaN ∧
  JS.parseInt (Some (String (ascii_of_N 195) (String (ascii_of_N 169) "1"))) = JS.NaN ∧
  JS.parseInt (Some (String (ascii_of_N 194) (String (ascii_of_N 133) "1"))) = JS.NaN.
Proof. repeat split; reflexivity. Qed.

(** 2^53 - 1 is read as it is; from 2^53 on only the sign is kept. *)
Example parseInt_long_runs :
  JS.parseInt (Some "9007199254740991") = JS.Int 9007199254740991 ∧
  JS.parseInt (Some "9007199254740993") = JS.Huge false ∧
  JS.parseInt (Some "-99999999999999999999") = JS.Huge true.
Proof. repeat split; reflexivity. Qed.

Example to_string_examples :
  JS.to_string (JS.Int 120) = "120" ∧ JS.to_string (JS.Int (-3)) = "-3"
  ∧ JS.to_string (JS.Int 0) = "0".
Proof. repeat split; reflexivity. Qed.

Example includes_ignores_case :
  JS.includes (JS.toLowerCase "The Dragon") (JS.toLowerCase "DRAG") = true.
Proof. reflexivity. Qed.

(** The manifest of the demo, no stored preference: the title shows
    "demo", chapter 1 is requested at [demo/llm_chapters/1.txt], the
    indicator shows "Chapter 1 / 2", previous is disabled, next enabled. *)
Example first_visit :
  novelTitle (shown Demo.opened) = "demo" ∧
  requests Demo.opened = ["demo/manifest.json"; "demo/llm_chapters/1.txt"] ∧
  chapterContent (shown Demo.opened) = TextContent "one" ∧
  chapterIndicator (shown Demo.opened) = "Chapter 1 / 2" ∧
  prevDisabled (shown Demo.opened) = true ∧
  nextDisabled (shown Demo.opened) = false.
Proof. vm_compute. repeat split; reflexivity. Qed.

(** The same visit when the processed text is missing: the raw text is
    requested after the 404. *)
Example first_visit_fallback :
  let net path := if String.eqb path "demo/manifest.json"
                  then Demo.server path else Demo.raw_server path in
  let p := start (Some "demo") net (Demo.blank ∅) in
  requests p = ["demo/manifest.json"; "demo/llm_chapters/1.txt";
                "demo/raw_chapters/1.txt"] ∧
  chapterContent (shown p) = TextContent "raw one".
Proof. vm_compute. split; reflexivity. Qed.

(** Stored [lastChapter-demo = 1]: the initial load is chapter index 1. *)
Example return_visit :
  let p := start (Some "demo") Demo.server (Demo.blank {["lastChapter-demo" := "1"]}) in
  currentChapterIndex p = JS.Int 1 ∧
  requests p = ["demo/manifest.json"; "demo/llm_chapters/2.txt"] ∧
  chapterContent (shown p) = TextContent "two".
Proof. vm_compute. repeat split; reflexivity. Qed.

(** Setting the font size to 22 sets the displayed size to "22px" and
    stores [fontSize = 22]. *)
Example font_size_22 :
  let p := handle Demo.server (FontSizeInput "22") Demo.opened in
  styleFontSize (look p) = "22px" ∧ getItem "fontSize" p = Some "22".
Proof. vm_compute. split; reflexivity. Qed.

(** No novel in the URL: nothing is requested. *)
Example no_novel :
  let p := start None Demo.server (Demo.blank ∅) in
  novelTitle (shown p) = "Novel not found in URL." ∧ requests p = [].
Proof. vm_compute. split; reflexivity. Qed.

End Scenarios.
